(** * The Ark backup controller: a shallow embedding of
      [pkg/controller/backup_controller.go] and the properties its
      specification states about it.

    The controller is effectful Go code: it reads a clock, talks to the
    cluster-state store, registers running backups in a tracker, emits
    metrics and drives external collaborators (plugin manager, Backupper,
    BackupStore).  The embedding makes those effects explicit:

    - the collaborators are the fields of one record, [Env]: each field is
      the answer the collaborator gives, so a theorem that quantifies over
      [Env] holds for every behaviour of every collaborator;
    - the mutable state is a record, [World]: the number of clock readings,
      of patch requests and of temporary files so far, the objects held by
      the cluster-state store and the content of the BackupTracker;
    - a computation is a function from the world to a result, a new world
      and the list of events it produced, in program order.

    Go pointers to a [Backup] become values that are passed and returned:
    [runBackup] receives the request and returns it as it has mutated it. *)

From stdpp Require Import base strings gmap list.
From Stdlib Require Import ZArith.

Local Open Scope Z_scope.
Local Open Scope string_scope.
Local Open Scope list_scope.

(** ** Errors *)

(** Go's [error] values.  [nil] is [None] in [option GoError]. *)
#[warnings="-register-all"]
Inductive GoError : Type :=
| ErrMsg (msg : string)
| ErrWrap (cause : GoError) (msg : string)
| ErrAggregate (errs : list GoError).

(** [err.Error()], as [%v] prints it: [errors.Wrap] prefixes the message,
    an aggregate lists its members. *)
Fixpoint Error (e : GoError) : string :=
  match e with
  | ErrMsg msg => msg
  | ErrWrap cause msg => msg +:+ ": " +:+ Error cause
  | ErrAggregate errs =>
      "[" +:+ (fix join (l : list GoError) : string :=
                match l with
                | [] => ""
                | x :: r => Error x +:+ match r with [] => "" | _ => ", " +:+ join r end
                end) errs +:+ "]"
  end.

(** A Go result pair [(value, err)]. *)
Inductive result (A : Type) : Type :=
| Ok (a : A)
| Err (e : GoError).
Arguments Ok {A} a.
Arguments Err {A} e.

(** [kerrors.NewAggregate]: [nil] for an empty list. *)
Definition NewAggregate (errs : list GoError) : option GoError :=
  match errs with
  | [] => None
  | _ => Some (ErrAggregate errs)
  end.

(** ** The API objects *)

(** [time.Time] and [time.Duration] (nanoseconds). *)
Definition Time := Z.
Definition Duration := Z.

Definition time_Second : Duration := 1000000000.
Definition maxDuration : Duration := 9223372036854775807.
Definition minDuration : Duration := -9223372036854775808.

(** [t.Add(d)]. *)
Definition Time_Add (t : Time) (d : Duration) : Time := t + d.

(** [t.Sub(u)]: the difference, saturated to the range of a Duration. *)
Definition Time_Sub (t u : Time) : Duration :=
  Z.max minDuration (Z.min maxDuration (t - u)).

(** [api.BackupPhase] is a string type. *)
Definition BackupPhase := string.

(** Modelled from the spec: the phase constants of [pkg/apis/ark/v1], which
    is not among the sources; the glossary names them. *)
Definition BackupPhaseNew : BackupPhase := "New".
Definition BackupPhaseFailedValidation : BackupPhase := "FailedValidation".
Definition BackupPhaseInProgress : BackupPhase := "InProgress".
Definition BackupPhaseCompleted : BackupPhase := "Completed".
Definition BackupPhaseFailed : BackupPhase := "Failed".

Definition backupVersion : Z := 1.

Record BackupSpec : Type := mkBackupSpec {
  TTL : Duration;
  StorageLocation : string;
  IncludedResources : list string;
  ExcludedResources : list string;
  IncludedNamespaces : list string;
  ExcludedNamespaces : list string;
  SnapshotVolumes : option bool;       (* *bool *)
}.

Record BackupStatus : Type := mkBackupStatus {
  Version : Z;
  Expiration : Time;
  Phase : BackupPhase;
  ValidationErrors : list string;
  StartTimestamp : Time;
  CompletionTimestamp : Time;
}.

Record Backup : Type := mkBackup {
  Namespace : string;
  Name : string;
  Labels : gmap string string;         (* nil and the empty map are both ∅ *)
  Spec : BackupSpec;
  Status : BackupStatus;
}.

(** [api.BackupStorageLocation]: identity and opaque provider configuration. *)
Record BackupStorageLocation : Type := mkBackupStorageLocation {
  LocNamespace : string;
  LocName : string;
  LocConfig : string;
}.

(** Field assignments through a pointer. *)
Definition set_StorageLocation (v : string) (b : Backup) : Backup :=
  let s := Spec b in
  mkBackup (Namespace b) (Name b) (Labels b)
    (mkBackupSpec (TTL s) v (IncludedResources s) (ExcludedResources s)
       (IncludedNamespaces s) (ExcludedNamespaces s) (SnapshotVolumes s))
    (Status b).

Definition set_Label (k v : string) (b : Backup) : Backup :=
  mkBackup (Namespace b) (Name b) (<[k := v]> (Labels b)) (Spec b) (Status b).

Definition set_Version (v : Z) (b : Backup) : Backup :=
  let s := Status b in
  mkBackup (Namespace b) (Name b) (Labels b) (Spec b)
    (mkBackupStatus v (Expiration s) (Phase s) (ValidationErrors s)
       (StartTimestamp s) (CompletionTimestamp s)).

Definition set_Expiration (v : Time) (b : Backup) : Backup :=
  let s := Status b in
  mkBackup (Namespace b) (Name b) (Labels b) (Spec b)
    (mkBackupStatus (Version s) v (Phase s) (ValidationErrors s)
       (StartTimestamp s) (CompletionTimestamp s)).

Definition set_Phase (v : BackupPhase) (b : Backup) : Backup :=
  let s := Status b in
  mkBackup (Namespace b) (Name b) (Labels b) (Spec b)
    (mkBackupStatus (Version s) (Expiration s) v (ValidationErrors s)
       (StartTimestamp s) (CompletionTimestamp s)).

Definition set_ValidationErrors (v : list string) (b : Backup) : Backup :=
  let s := Status b in
  mkBackup (Namespace b) (Name b) (Labels b) (Spec b)
    (mkBackupStatus (Version s) (Expiration s) (Phase s) v
       (StartTimestamp s) (CompletionTimestamp s)).

Definition set_StartTimestamp (v : Time) (b : Backup) : Backup :=
  let s := Status b in
  mkBackup (Namespace b) (Name b) (Labels b) (Spec b)
    (mkBackupStatus (Version s) (Expiration s) (Phase s) (ValidationErrors s)
       v (CompletionTimestamp s)).

Definition set_CompletionTimestamp (v : Time) (b : Backup) : Backup :=
  let s := Status b in
  mkBackup (Namespace b) (Name b) (Labels b) (Spec b)
    (mkBackupStatus (Version s) (Expiration s) (Phase s) (ValidationErrors s)
       (StartTimestamp s) v).

(** [backup.GetLabels()[k]]: the empty string for a missing key. *)
Definition GetLabel (k : string) (b : Backup) : string :=
  default "" (Labels b !! k).

(** ** The status-patch document *)

(** A JSON merge patch between two snapshots of a Backup, at the granularity
    of the fields of the object: a field is present in the patch when the two
    snapshots differ on it, a label is present with its new value or with
    [None] (JSON null) when it is removed.  Namespace and name are the
    identity the patch is addressed to. *)
Record MergePatch : Type := mkMergePatch {
  p_Labels : gmap string (option string);
  p_TTL : option Duration;
  p_StorageLocation : option string;
  p_IncludedResources : option (list string);
  p_ExcludedResources : option (list string);
  p_IncludedNamespaces : option (list string);
  p_ExcludedNamespaces : option (list string);
  p_SnapshotVolumes : option (option bool);
  p_Version : option Z;
  p_Expiration : option Time;
  p_Phase : option BackupPhase;
  p_ValidationErrors : option (list string);
  p_StartTimestamp : option Time;
  p_CompletionTimestamp : option Time;
}.

Definition diff_field {A : Type} `{EqDecision A} (o u : A) : option A :=
  if decide (o = u) then None else Some u.

Definition diff_label (o u : option string) : option (option string) :=
  match o, u with
  | _, Some v => if decide (o = Some v) then None else Some (Some v)
  | Some _, None => Some None
  | None, None => None
  end.

(** [jsonpatch.CreateMergePatch(original, updated)]. *)
Definition CreateMergePatch (original updated : Backup) : MergePatch :=
  let os := Spec original in
  let us := Spec updated in
  let ot := Status original in
  let ut := Status updated in
  mkMergePatch
    (merge diff_label (Labels original) (Labels updated))
    (diff_field (TTL os) (TTL us))
    (diff_field (StorageLocation os) (StorageLocation us))
    (diff_field (IncludedResources os) (IncludedResources us))
    (diff_field (ExcludedResources os) (ExcludedResources us))
    (diff_field (IncludedNamespaces os) (IncludedNamespaces us))
    (diff_field (ExcludedNamespaces os) (ExcludedNamespaces us))
    (diff_field (SnapshotVolumes os) (SnapshotVolumes us))
    (diff_field (Version ot) (Version ut))
    (diff_field (Expiration ot) (Expiration ut))
    (diff_field (Phase ot) (Phase ut))
    (diff_field (ValidationErrors ot) (ValidationErrors ut))
    (diff_field (StartTimestamp ot) (StartTimestamp ut))
    (diff_field (CompletionTimestamp ot) (CompletionTimestamp ut)).

Definition apply_label (p : option (option string)) (s : option string) : option string :=
  match p with
  | Some v => v
  | None => s
  end.

(** The store's merge: present fields overwrite, absent fields are untouched. *)
Definition applyMergePatch (p : MergePatch) (obj : Backup) : Backup :=
  let s := Spec obj in
  let t := Status obj in
  mkBackup (Namespace obj) (Name obj)
    (merge apply_label (p_Labels p) (Labels obj))
    (mkBackupSpec
       (default (TTL s) (p_TTL p))
       (default (StorageLocation s) (p_StorageLocation p))
       (default (IncludedResources s) (p_IncludedResources p))
       (default (ExcludedResources s) (p_ExcludedResources p))
       (default (IncludedNamespaces s) (p_IncludedNamespaces p))
       (default (ExcludedNamespaces s) (p_ExcludedNamespaces p))
       (default (SnapshotVolumes s) (p_SnapshotVolumes p)))
    (mkBackupStatus
       (default (Version t) (p_Version p))
       (default (Expiration t) (p_Expiration p))
       (default (Phase t) (p_Phase p))
       (default (ValidationErrors t) (p_ValidationErrors p))
       (default (StartTimestamp t) (p_StartTimestamp p))
       (default (CompletionTimestamp t) (p_CompletionTimestamp p))).

(** ** Events, collaborators and the world *)

Inductive Logger : Type := ControllerLog | BackupLog.
Inductive Level : Type := DebugLevel | InfoLevel | ErrorLevel.

(** A temporary file, by its name. *)
Definition File := string.

(** What the controller does to the outside, in program order.  One event
    is an observation rather than an effect: [EvPatchBackup] records a call
    of [patchBackup] with its two snapshots and what it returned, so that
    the statements below can name the first and the terminal status patch. *)
Inductive Event : Type :=
| EvLog (lg : Logger) (lvl : Level) (msg : string)
| EvPatch (ns name : string) (p : MergePatch)
| EvPatchBackup (original updated : Backup) (r : result Backup)
| EvTrackerAdd (ns name : string)
| EvTrackerDelete (ns name : string)
| EvRegisterBackupAttempt (schedule : string)
| EvRegisterBackupSuccess (schedule : string)
| EvRegisterBackupFailed (schedule : string)
| EvSetBackupTarballSizeBytesGauge (schedule : string) (size : Z)
| EvRegisterBackupDuration (schedule : string) (seconds : Z)
| EvTempFile (r : result File)
| EvFileClose (f : File)
| EvRemove (f : File)
| EvGzipClose (f : File)
| EvNewPluginManager
| EvCleanupClients
| EvGetBackupItemActions
| EvNewBackupStore (loc : option BackupStorageLocation)
| EvBackupperBackup (b : Backup) (archive : File)
| EvEncodeTo (b : Backup)
| EvStat (f : File)
| EvPutBackup (name : string) (manifest : option Backup) (archive : option File) (log : File).

(** The collaborators of the controller and its configuration.  A field that
    returns an [option GoError] is a call that returns only an error; a
    field indexed by a [nat] is asked for its n-th answer.  The
    collaborators are taken at their interface: they answer, and write only
    to the sinks they are handed. *)
Record Env : Type := mkEnv {
  (* configuration of the controller *)
  pvProviderExists : bool;
  defaultBackupLocation : string;
  (* api.StorageLocationLabel, a constant of pkg/apis/ark/v1 *)
  StorageLocationLabel : string;
  (* cache.SplitMetaNamespaceKey *)
  SplitMetaNamespaceKey : string → result (string * string);
  (* c.lister.Backups(ns).Get(name) *)
  lister_Get : string → string → result Backup;
  (* c.backupLocationLister.BackupStorageLocations(ns).Get(name) *)
  backupLocationLister_Get : string → string → result BackupStorageLocation;
  (* c.clock.Now(), n-th reading *)
  clock_Now : nat → Time;
  (* json.Marshal and jsonpatch.CreateMergePatch failing *)
  json_Marshal_err : Backup → option GoError;
  CreateMergePatch_err : Backup → Backup → option GoError;
  (* the cluster-state store refusing the n-th patch request *)
  Patch_err : nat → option GoError;
  (* ioutil.TempFile("", ""), n-th call *)
  ioutil_TempFile : nat → result File;
  file_Close_err : File → option GoError;
  os_Remove_err : File → option GoError;
  file_Stat : File → result Z;
  gzip_Close_err : File → option GoError;
  (* pluginManager.GetBackupItemActions() *)
  GetBackupItemActions_err : option GoError;
  (* c.newBackupStore(backupLocation, pluginManager, log) *)
  newBackupStore_err : option BackupStorageLocation → option GoError;
  (* c.backupper.Backup(log, backup, backupFile, actions) *)
  backupper_Backup : Backup → File → option GoError;
  (* encode.EncodeTo(backup, "json", buf) *)
  encode_EncodeTo_err : Backup → option GoError;
  (* backupStore.PutBackup(name, metadata, contents, log) *)
  PutBackup_err : string → option Backup → option File → File → option GoError;
}.

Record World : Type := mkWorld {
  w_clock : nat;                               (* clock readings so far *)
  w_patches : nat;                             (* patch requests so far *)
  w_tempfiles : nat;                           (* temporary files so far *)
  w_server : gmap (string * string) Backup;    (* the cluster-state store *)
  w_tracker : gset (string * string);          (* the BackupTracker *)
}.

(** ** Computations *)

Record Outcome (A : Type) : Type := mkOutcome {
  res : A;
  world : World;
  events : list Event;
}.
Arguments mkOutcome {A} res world events.
Arguments res {A} o.
Arguments world {A} o.
Arguments events {A} o.

Definition M (A : Type) : Type := World → Outcome A.

Definition ret {A : Type} (a : A) : M A := λ w, mkOutcome a w [].

Definition bind {A B : Type} (m : M A) (k : A → M B) : M B :=
  λ w, match m w with
       | mkOutcome a w1 evs1 =>
           match k a w1 with
           | mkOutcome b w2 evs2 => mkOutcome b w2 (evs1 ++ evs2)
           end
       end.

Notation "'let*' x ':=' c 'in' k" := (bind c (λ x, k))
  (at level 10, x pattern, c at level 100, k at level 200).
Notation "c ';;' k" := (bind c (λ _, k))
  (at level 100, k at level 200, right associativity).

Definition emit (e : Event) : M unit := λ w, mkOutcome tt w [e].

(** A deferred call: [d] runs when [body] returns, whatever it returns.
    Nested, the innermost (the last one deferred) runs first. *)
Definition with_defer {A : Type} (d : M unit) (body : M A) : M A :=
  let* x := body in d ;; ret x.

Definition log (lg : Logger) (lvl : Level) (msg : string) : M unit :=
  emit (EvLog lg lvl msg).

(** ** Validation *)

(** A list names the wildcard together with an explicit name. *)
Definition wildcard_mixed (l : list string) : bool :=
  bool_decide ("*" ∈ l) && existsb (λ n, negb (String.eqb n "*")) l.

(** Modelled from the spec: [collections.ValidateIncludesExcludes], of
    [pkg/util/collections], which is not among the sources.  The lists are
    contradictory when the wildcard co-occurs with an explicit name in a
    list, or when a name is in both lists; one error is returned for each
    contradiction found, none otherwise. *)
Definition ValidateIncludesExcludes (includesList excludesList : list string) : list GoError :=
  (if wildcard_mixed includesList
   then [ErrMsg "includes list must either contain '*' only, or a list of items"]
   else []) ++
  (if wildcard_mixed excludesList
   then [ErrMsg "excludes list must either contain '*' only, or a list of items"]
   else []) ++
  map (λ itm, ErrMsg ("excludes list cannot contain an item in the includes list: " +:+ itm))
      (filter (λ itm, itm ∈ includesList) excludesList).

Section Controller.

Context (c : Env).

(** [getLocationAndValidate] mutates [itm] through its pointer: the request
    as mutated is returned with the location and the validation errors. *)
Definition getLocationAndValidate (itm : Backup) (defaultBackupLocation : string)
  : Backup * option BackupStorageLocation * list string :=
  let validationErrors : list string := [] in
  let validationErrors :=
    validationErrors ++
    map (λ err, "Invalid included/excluded resource lists: " +:+ Error err)
        (ValidateIncludesExcludes (IncludedResources (Spec itm)) (ExcludedResources (Spec itm))) in
  let validationErrors :=
    validationErrors ++
    map (λ err, "Invalid included/excluded namespace lists: " +:+ Error err)
        (ValidateIncludesExcludes (IncludedNamespaces (Spec itm)) (ExcludedNamespaces (Spec itm))) in
  let validationErrors :=
    if negb (pvProviderExists c) &&
       match SnapshotVolumes (Spec itm) with Some v => v | None => false end
    then validationErrors ++ ["Server is not configured for PV snapshots"]
    else validationErrors in
  let itm :=
    if String.eqb (StorageLocation (Spec itm)) ""
    then set_StorageLocation defaultBackupLocation itm
    else itm in
  (* add the storage location as a label for easy filtering later. *)
  let itm := set_Label (StorageLocationLabel c) (StorageLocation (Spec itm)) itm in
  match backupLocationLister_Get c (Namespace itm) (StorageLocation (Spec itm)) with
  | Err err =>
      (itm, None,
       validationErrors ++ ["Error getting backup storage location: " +:+ Error err])
  | Ok backupLocation => (itm, Some backupLocation, validationErrors)
  end.

(** ** The status-patch protocol *)

(** [client.Backups(ns).Patch(name, types.MergePatchType, patchBytes)]: the
    store refuses the request, or merges the document into the object it
    holds and answers with the result. *)
Definition client_Patch (ns name : string) (p : MergePatch) : M (result Backup) :=
  λ w,
    let w1 := mkWorld (w_clock w) (S (w_patches w)) (w_tempfiles w) (w_server w) (w_tracker w) in
    match Patch_err c (w_patches w) with
    | Some err => mkOutcome (Err err) w1 [EvPatch ns name p]
    | None =>
        match w_server w !! (ns, name) with
        | None => mkOutcome (Err (ErrMsg "not found")) w1 [EvPatch ns name p]
        | Some obj =>
            let obj' := applyMergePatch p obj in
            mkOutcome (Ok obj')
              (mkWorld (w_clock w) (S (w_patches w)) (w_tempfiles w)
                 (<[(ns, name) := obj']> (w_server w)) (w_tracker w))
              [EvPatch ns name p]
        end
    end.

Definition patchBackup (original updated : Backup) : M (result Backup) :=
  let* r :=
    match json_Marshal_err c original with
    | Some err => ret (Err (ErrWrap err "error marshalling original backup"))
    | None =>
    match json_Marshal_err c updated with
    | Some err => ret (Err (ErrWrap err "error marshalling updated backup"))
    | None =>
    match CreateMergePatch_err c original updated with
    | Some err => ret (Err (ErrWrap err "error creating json merge patch for backup"))
    | None =>
        let patchBytes := CreateMergePatch original updated in
        let* r := client_Patch (Namespace original) (Name original) patchBytes in
        match r with
        | Err err => ret (Err (ErrWrap err "error patching backup"))
        | Ok res => ret (Ok res)
        end
    end end end in
  emit (EvPatchBackup original updated r) ;;
  ret r.

(** ** Primitive effects *)

(** [c.clock.Now()]. *)
Definition clock_now : M Time :=
  λ w, mkOutcome (clock_Now c (w_clock w))
         (mkWorld (S (w_clock w)) (w_patches w) (w_tempfiles w) (w_server w) (w_tracker w))
         [].

(** [ioutil.TempFile("", "")]. *)
Definition TempFile : M (result File) :=
  λ w, let r := ioutil_TempFile c (w_tempfiles w) in
       mkOutcome r
         (mkWorld (w_clock w) (w_patches w) (S (w_tempfiles w)) (w_server w) (w_tracker w))
         [EvTempFile r].

(** Modelled from the spec: the BackupTracker, of
    [pkg/controller/backup_tracker.go], which is not among the sources: a
    set of (namespace, name) pairs with [Add] and [Delete]. *)
Definition backupTracker_Add (ns name : string) : M unit :=
  λ w, mkOutcome tt
         (mkWorld (w_clock w) (w_patches w) (w_tempfiles w) (w_server w)
            ({[ (ns, name) ]} ∪ w_tracker w))
         [EvTrackerAdd ns name].

Definition backupTracker_Delete (ns name : string) : M unit :=
  λ w, mkOutcome tt
         (mkWorld (w_clock w) (w_patches w) (w_tempfiles w) (w_server w)
            (w_tracker w ∖ {[ (ns, name) ]}))
         [EvTrackerDelete ns name].

Definition closeAndRemoveFile (file : File) (lg : Logger) : M unit :=
  emit (EvFileClose file) ;;
  match file_Close_err c file with
  | Some _ => log lg ErrorLevel "error closing file"
  | None => ret tt
  end ;;
  emit (EvRemove file) ;;
  match os_Remove_err c file with
  | Some _ => log lg ErrorLevel "error removing file"
  | None => ret tt
  end.

(** ** The execution pipeline *)

Definition runBackup (backup : Backup) (backupLocation : option BackupStorageLocation)
  : M (Backup * option GoError) :=
  log ControllerLog InfoLevel "Starting backup" ;;
  let* now := clock_now in
  let backup := set_StartTimestamp now backup in
  let* r := TempFile in
  match r with
  | Err err => ret (backup, Some (ErrWrap err "error creating temp file for backup log"))
  | Ok logFile =>
  (* defer gzippedLogFile.Close(): the error is dropped *)
  with_defer (emit (EvGzipClose logFile)) (
  with_defer (closeAndRemoveFile logFile ControllerLog) (
    log BackupLog InfoLevel "Starting backup" ;;
    let* r := TempFile in
    match r with
    | Err err => ret (backup, Some (ErrWrap err "error creating temp file for backup"))
    | Ok backupFile =>
    with_defer (closeAndRemoveFile backupFile BackupLog) (
      emit EvNewPluginManager ;;
      with_defer (emit EvCleanupClients) (
        emit EvGetBackupItemActions ;;
        match GetBackupItemActions_err c with
        | Some err => ret (backup, Some err)
        | None =>
        emit (EvNewBackupStore backupLocation) ;;
        match newBackupStore_err c backupLocation with
        | Some err => ret (backup, Some err)
        | None =>
          let errs : list GoError := [] in
          (* Do the actual backup *)
          emit (EvBackupperBackup backup backupFile) ;;
          let '(errs, backup) :=
            match backupper_Backup c backup backupFile with
            | Some err => (errs ++ [err], set_Phase BackupPhaseFailed backup)
            | None => (errs, set_Phase BackupPhaseCompleted backup)
            end in
          (* Mark completion timestamp before serializing and uploading. *)
          let* now := clock_now in
          let backup := set_CompletionTimestamp now backup in
          emit (EvEncodeTo backup) ;;
          let '(errs, backupJSONToUpload, backupFileToUpload) :=
            match encode_EncodeTo_err c backup with
            | Some err => (errs ++ [ErrWrap err "error encoding backup"], None, None)
            | None => (errs, Some backup, Some backupFile)
            end in
          emit (EvStat backupFile) ;;
          let '(errs, backupSizeBytes) :=
            match file_Stat c backupFile with
            | Err err => (errs ++ [ErrWrap err "error getting file info"], 0)
            | Ok size => (errs, size)
            end in
          emit (EvGzipClose logFile) ;;
          match gzip_Close_err c logFile with
          | Some _ => log ControllerLog ErrorLevel "error closing gzippedLogFile"
          | None => ret tt
          end ;;
          emit (EvPutBackup (Name backup) backupJSONToUpload backupFileToUpload logFile) ;;
          let errs :=
            match PutBackup_err c (Name backup) backupJSONToUpload backupFileToUpload logFile with
            | Some err => errs ++ [err]
            | None => errs
            end in
          let backupScheduleName := GetLabel "ark-schedule" backup in
          emit (EvSetBackupTarballSizeBytesGauge backupScheduleName backupSizeBytes) ;;
          let backupDuration :=
            Time_Sub (CompletionTimestamp (Status backup)) (StartTimestamp (Status backup)) in
          let backupDurationSeconds := Z.quot backupDuration time_Second in
          emit (EvRegisterBackupDuration backupScheduleName backupDurationSeconds) ;;
          log BackupLog InfoLevel "Backup completed" ;;
          ret (backup, NewAggregate errs)
        end end))
    end))
  end.

(** ** The reconciler *)

Definition phase_is_new (p : BackupPhase) : bool :=
  String.eqb p "" || String.eqb p BackupPhaseNew.

Definition processBackup (key : string) : M (option GoError) :=
  log ControllerLog DebugLevel "Running processBackup" ;;
  match SplitMetaNamespaceKey c key with
  | Err err => ret (Some (ErrWrap err "error splitting queue key"))
  | Ok (ns, name) =>
  log ControllerLog DebugLevel "Getting backup" ;;
  match lister_Get c ns name with
  | Err err => ret (Some (ErrWrap err "error getting backup"))
  | Ok backup =>
  (* Double-check we have the correct phase. *)
  if negb (phase_is_new (Phase (Status backup))) then ret None else
  log ControllerLog DebugLevel "Cloning backup" ;;
  (* store ref to original for creating patch *)
  let original := backup in
  (* set backup version *)
  let backup := set_Version backupVersion backup in
  (* calculate expiration *)
  let* backup :=
    (if (0 <? TTL (Spec backup))%Z
     then let* now := clock_now in
          ret (set_Expiration (Time_Add now (TTL (Spec backup))) backup)
     else ret backup) in
  (* validation *)
  let '(backup, backupLocation, validationErrors) :=
    getLocationAndValidate backup (defaultBackupLocation c) in
  let backup := set_ValidationErrors validationErrors backup in
  let backup :=
    if (0 <? length validationErrors)%nat
    then set_Phase BackupPhaseFailedValidation backup
    else set_Phase BackupPhaseInProgress backup in
  (* update status *)
  let* r := patchBackup original backup in
  match r with
  | Err err =>
      ret (Some (ErrWrap err ("error updating Backup status to " +:+ Phase (Status backup))))
  | Ok updatedBackup =>
  (* store ref to just-updated item for creating patch *)
  let original := updatedBackup in
  let backup := updatedBackup in
  if String.eqb (Phase (Status backup)) BackupPhaseFailedValidation then ret None else
  backupTracker_Add (Namespace backup) (Name backup) ;;
  with_defer (backupTracker_Delete (Namespace backup) (Name backup)) (
    log ControllerLog DebugLevel "Running backup" ;;
    (* execution & upload of backup *)
    let backupScheduleName := GetLabel "ark-schedule" backup in
    emit (EvRegisterBackupAttempt backupScheduleName) ;;
    let* (backup, err) := runBackup backup backupLocation in
    let* backup :=
      match err with
      | Some _ =>
          log ControllerLog ErrorLevel "backup failed" ;;
          let backup := set_Phase BackupPhaseFailed backup in
          emit (EvRegisterBackupFailed backupScheduleName) ;;
          ret backup
      | None =>
          emit (EvRegisterBackupSuccess backupScheduleName) ;;
          ret backup
      end in
    log ControllerLog DebugLevel "Updating backup's final status" ;;
    let* r := patchBackup original backup in
    match r with
    | Err _ => log ControllerLog ErrorLevel "error updating backup's final status"
    | Ok _ => ret tt
    end ;;
    ret None)
  end end end.

End Controller.

(** ** Concrete requests and collaborators

    Used to run the controller on explicit inputs. *)

Definition example_spec (ttl : Duration) (includedNamespaces excludedNamespaces : list string)
  : BackupSpec :=
  mkBackupSpec ttl "" [] [] includedNamespaces excludedNamespaces None.

Definition example_backup (phase : BackupPhase) (spec : BackupSpec) : Backup :=
  mkBackup "heptio-ark" "nightly" ∅ spec (mkBackupStatus 0 0 phase [] 0 0).

Definition example_location : BackupStorageLocation :=
  mkBackupStorageLocation "heptio-ark" "default" "provider: aws".

(** Collaborators that all succeed, but for the answers given as arguments:
    the cached request, the clock, the store's refusals and the errors of the
    plugin manager, the Backupper, the log stream and the upload. *)
Definition example_env
    (cached : result Backup) (clock : nat → Time) (patch_err : nat → option GoError)
    (actions_err backup_err close_err put_err : option GoError) : Env :=
  mkEnv true "default" "ark.heptio.com/storage-location"
    (λ key, if String.eqb key "heptio-ark/nightly"
            then Ok ("heptio-ark", "nightly")
            else Err (ErrMsg "unexpected key format"))
    (λ _ _, cached)
    (λ ns name, if String.eqb name "default"
                then Ok example_location
                else Err (ErrMsg "backupstoragelocation not found"))
    clock
    (λ _, None) (λ _ _, None)
    patch_err
    (λ n, Ok (match n with O => "/tmp/log" | _ => "/tmp/backup" end))
    (λ _, None) (λ _, None) (λ _, Ok 4096)
    (λ _, close_err)
    actions_err
    (λ _, None)
    (λ _ _, backup_err)
    (λ _, None)
    (λ _ _ _ _, put_err).

(** A world in which the store holds exactly the given request. *)
Definition example_world (b : Backup) : World :=
  mkWorld 0 0 0 {[ (Namespace b, Name b) := b ]} ∅.

(** ** Observations on a run *)

(** Log lines and the record of a [patchBackup] call are not effects. *)
Definition is_observation (e : Event) : bool :=
  match e with
  | EvLog _ _ _ | EvPatchBackup _ _ _ => true
  | _ => false
  end.

(** The effects of a run: its events without the observations. *)
Definition effects (evs : list Event) : list Event :=
  List.filter (λ e, negb (is_observation e)) evs.

(** The calls of [patchBackup], in order: original, updated, answer. *)
Definition patch_calls (evs : list Event) : list (Backup * Backup * result Backup) :=
  flat_map (λ e, match e with
                 | EvPatchBackup original updated r => [(original, updated, r)]
                 | _ => []
                 end) evs.

(** The patch documents submitted to the store, in order. *)
Definition patch_requests (evs : list Event) : list MergePatch :=
  flat_map (λ e, match e with EvPatch _ _ p => [p] | _ => [] end) evs.

Definition is_tracker_event (e : Event) : bool :=
  match e with
  | EvTrackerAdd _ _ | EvTrackerDelete _ _ => true
  | _ => false
  end.

Definition tracker_events (evs : list Event) : list Event :=
  List.filter is_tracker_event evs.

(** The events that only [runBackup] produces. *)
Definition is_pipeline_event (e : Event) : bool :=
  match e with
  | EvTempFile _ | EvFileClose _ | EvRemove _ | EvGzipClose _
  | EvNewPluginManager | EvCleanupClients | EvGetBackupItemActions
  | EvNewBackupStore _ | EvBackupperBackup _ _ | EvEncodeTo _ | EvStat _
  | EvPutBackup _ _ _ _ | EvSetBackupTarballSizeBytesGauge _ _
  | EvRegisterBackupDuration _ _ => true
  | _ => false
  end.

(** The steps of the pipeline the specification lists: archive
    construction, size accounting, log flushing, upload, metrics. *)
Definition is_archive_step (e : Event) : bool :=
  match e with EvBackupperBackup _ _ => true | _ => false end.
Definition is_size_step (e : Event) : bool :=
  match e with EvStat _ => true | _ => false end.
Definition is_flush_step (e : Event) : bool :=
  match e with EvGzipClose _ => true | _ => false end.
Definition is_upload_step (e : Event) : bool :=
  match e with EvPutBackup _ _ _ _ => true | _ => false end.
Definition is_metrics_step (e : Event) : bool :=
  match e with
  | EvSetBackupTarballSizeBytesGauge _ _ | EvRegisterBackupDuration _ _ => true
  | _ => false
  end.

Definition all_steps_run (evs : list Event) : bool :=
  existsb is_archive_step evs && existsb is_size_step evs &&
  existsb is_flush_step evs && existsb is_upload_step evs &&
  existsb is_metrics_step evs.

(** The two temporary files, the plugin actions and the object-store client
    are all obtained, for a pipeline started in world [w]. *)
Definition acquired (c : Env) (backupLocation : option BackupStorageLocation) (w : World) : bool :=
  match ioutil_TempFile c (w_tempfiles w), ioutil_TempFile c (S (w_tempfiles w)),
        GetBackupItemActions_err c, newBackupStore_err c backupLocation with
  | Ok _, Ok _, None, None => true
  | _, _, _, _ => false
  end.

(** A step whose error [runBackup] collects into the error it returns. *)
Definition collected_failure (c : Env) (e : Event) : bool :=
  match e with
  | EvBackupperBackup b f =>
      match backupper_Backup c b f with Some _ => true | None => false end
  | EvEncodeTo b =>
      match encode_EncodeTo_err c b with Some _ => true | None => false end
  | EvStat f =>
      match file_Stat c f with Err _ => true | Ok _ => false end
  | EvPutBackup n m a l =>
      match PutBackup_err c n m a l with Some _ => true | None => false end
  | _ => false
  end.

(** The final flush of the log stream fails. *)
Definition flush_failure (c : Env) (e : Event) : bool :=
  match e with
  | EvGzipClose f =>
      match gzip_Close_err c f with Some _ => true | None => false end
  | _ => false
  end.

(** Two snapshots of a request that differ at most in what the pipeline
    writes: phase, start and completion timestamps. *)
Definition same_request (b b' : Backup) : Prop :=
  Namespace b' = Namespace b ∧ Name b' = Name b ∧ Labels b' = Labels b ∧
  Spec b' = Spec b ∧
  Version (Status b') = Version (Status b) ∧
  Expiration (Status b') = Expiration (Status b) ∧
  ValidationErrors (Status b') = ValidationErrors (Status b).

(** The lists of a request are contradictory: a name is in both lists, or
    the wildcard co-occurs with an explicit name in one of them. *)
Definition contradictory (includesList excludesList : list string) : Prop :=
  (∃ n, n ∈ includesList ∧ n ∈ excludesList) ∨
  ("*" ∈ includesList ∧ ∃ n, n ∈ includesList ∧ n ≠ "*") ∨
  ("*" ∈ excludesList ∧ ∃ n, n ∈ excludesList ∧ n ≠ "*").

(** The error of a work item whose key does not decode or whose request is
    not in the cache. *)
Definition lookup_failure (c : Env) (key : string) : option GoError :=
  match SplitMetaNamespaceKey c key with
  | Err err => Some (ErrWrap err "error splitting queue key")
  | Ok (ns, name) =>
      match lister_Get c ns name with
      | Err err => Some (ErrWrap err "error getting backup")
      | Ok _ => None
      end
  end.

Definition is_log (e : Event) : bool :=
  match e with EvLog _ _ _ => true | _ => false end.

(** A run that only produced pipeline events and log lines. *)
Definition pipeline_only (evs : list Event) : bool :=
  forallb (λ e, is_pipeline_event e || is_log e) evs.

Section PipelineObservations.

Context (c : Env).

(** The request as [runBackup] hands it to the Backupper. *)
Definition started (backup : Backup) (w : World) : Backup :=
  set_StartTimestamp (clock_Now c (w_clock w)) backup.

(** The request as [runBackup] encodes it into the manifest and returns it. *)
Definition finished (backup : Backup) (w : World) (archive : File) : Backup :=
  set_CompletionTimestamp (clock_Now c (S (w_clock w)))
    (set_Phase (match backupper_Backup c (started backup w) archive with
                | Some _ => BackupPhaseFailed
                | None => BackupPhaseCompleted
                end) (started backup w)).

(** The errors [runBackup] collects, in order. *)
Definition collected (backup : Backup) (w : World) (logFile archive : File) : list GoError :=
  let m := finished backup w archive in
  match backupper_Backup c (started backup w) archive with
  | Some err => [err] | None => []
  end ++
  match encode_EncodeTo_err c m with
  | Some err => [ErrWrap err "error encoding backup"] | None => []
  end ++
  match file_Stat c archive with
  | Err err => [ErrWrap err "error getting file info"] | Ok _ => []
  end ++
  match PutBackup_err c (Name backup)
          (match encode_EncodeTo_err c m with Some _ => None | None => Some m end)
          (match encode_EncodeTo_err c m with Some _ => None | None => Some archive end)
          logFile with
  | Some err => [err] | None => []
  end.

(** The effects of a pipeline that obtained its files, actions and store. *)
Definition full_run (backup : Backup) (backupLocation : option BackupStorageLocation)
    (w : World) (logFile archive : File) : list Event :=
  let m := finished backup w archive in
  [EvTempFile (Ok logFile); EvTempFile (Ok archive); EvNewPluginManager;
   EvGetBackupItemActions; EvNewBackupStore backupLocation;
   EvBackupperBackup (started backup w) archive;
   EvEncodeTo m; EvStat archive; EvGzipClose logFile;
   EvPutBackup (Name backup)
     (match encode_EncodeTo_err c m with Some _ => None | None => Some m end)
     (match encode_EncodeTo_err c m with Some _ => None | None => Some archive end)
     logFile;
   EvSetBackupTarballSizeBytesGauge (GetLabel "ark-schedule" backup)
     (match file_Stat c archive with Ok size => size | Err _ => 0 end);
   EvRegisterBackupDuration (GetLabel "ark-schedule" backup)
     (Z.quot (Time_Sub (clock_Now c (S (w_clock w))) (clock_Now c (w_clock w))) time_Second);
   EvCleanupClients; EvFileClose archive; EvRemove archive;
   EvFileClose logFile; EvRemove logFile; EvGzipClose logFile].

End PipelineObservations.

(** ** The reconciler, case by case *)

Section ReconcilerObservations.

Context (c : Env).

(** The world after [processBackup] has stamped the copy: the clock is read
    once when the request has a TTL. *)
Definition stamp_world (backup : Backup) (w : World) : World :=
  if (0 <? TTL (Spec backup))%Z
  then mkWorld (S (w_clock w)) (w_patches w) (w_tempfiles w) (w_server w) (w_tracker w)
  else w.

(** The copy when validation starts: version and expiration are set. *)
Definition versioned (backup : Backup) (w : World) : Backup :=
  let b := set_Version backupVersion backup in
  if (0 <? TTL (Spec b))%Z
  then set_Expiration (Time_Add (clock_Now c (w_clock w)) (TTL (Spec b))) b
  else b.

(** The copy as the first status patch submits it: version, expiration,
    storage location and its label, validation errors and phase. *)
Definition stamped (backup : Backup) (w : World) : Backup :=
  let '(b, _, validationErrors) :=
    getLocationAndValidate c (versioned backup w) (defaultBackupLocation c) in
  let b := set_ValidationErrors validationErrors b in
  if (0 <? length validationErrors)%nat
  then set_Phase BackupPhaseFailedValidation b
  else set_Phase BackupPhaseInProgress b.

(** The storage location validation resolved. *)
Definition resolved (backup : Backup) (w : World) : option BackupStorageLocation :=
  snd (fst (getLocationAndValidate c (versioned backup w) (defaultBackupLocation c))).

(** The request as the terminal status patch submits it: what the pipeline
    returned, with phase Failed when it returned an error. *)
Definition decided (r : Outcome (Backup * option GoError)) : Backup :=
  match snd (res r) with
  | Some _ => set_Phase BackupPhaseFailed (fst (res r))
  | None => fst (res r)
  end.

Definition verdict_events (schedule : string) (r : Outcome (Backup * option GoError))
  : list Event :=
  match snd (res r) with
  | Some _ => [EvLog ControllerLog ErrorLevel "backup failed"; EvRegisterBackupFailed schedule]
  | None => [EvRegisterBackupSuccess schedule]
  end.

Definition track (ns name : string) (w : World) : World :=
  mkWorld (w_clock w) (w_patches w) (w_tempfiles w) (w_server w)
    ({[ (ns, name) ]} ∪ w_tracker w).

Definition untrack (ns name : string) (w : World) : World :=
  mkWorld (w_clock w) (w_patches w) (w_tempfiles w) (w_server w)
    (w_tracker w ∖ {[ (ns, name) ]}).

Definition log_running : Event := EvLog ControllerLog DebugLevel "Running processBackup".
Definition log_getting : Event := EvLog ControllerLog DebugLevel "Getting backup".
Definition log_cloning : Event := EvLog ControllerLog DebugLevel "Cloning backup".

(** The paths through [processBackup], each with the outcome it leads to. *)
Inductive Reconcile (key : string) (w : World) : Outcome (option GoError) → Prop :=
| RecBadKey err :
    SplitMetaNamespaceKey c key = Err err →
    Reconcile key w
      (mkOutcome (Some (ErrWrap err "error splitting queue key")) w [log_running])
| RecNotFound ns name err :
    SplitMetaNamespaceKey c key = Ok (ns, name) →
    lister_Get c ns name = Err err →
    Reconcile key w
      (mkOutcome (Some (ErrWrap err "error getting backup")) w [log_running; log_getting])
| RecNotNew ns name backup :
    SplitMetaNamespaceKey c key = Ok (ns, name) →
    lister_Get c ns name = Ok backup →
    phase_is_new (Phase (Status backup)) = false →
    Reconcile key w (mkOutcome None w [log_running; log_getting])
| RecPatchFailed ns name backup p1 err :
    SplitMetaNamespaceKey c key = Ok (ns, name) →
    lister_Get c ns name = Ok backup →
    phase_is_new (Phase (Status backup)) = true →
    p1 = patchBackup c backup (stamped backup w) (stamp_world backup w) →
    res p1 = Err err →
    Reconcile key w
      (mkOutcome
         (Some (ErrWrap err ("error updating Backup status to "
                             +:+ Phase (Status (stamped backup w)))))
         (world p1)
         ([log_running; log_getting; log_cloning] ++ events p1))
| RecFailedValidation ns name backup p1 u :
    SplitMetaNamespaceKey c key = Ok (ns, name) →
    lister_Get c ns name = Ok backup →
    phase_is_new (Phase (Status backup)) = true →
    p1 = patchBackup c backup (stamped backup w) (stamp_world backup w) →
    res p1 = Ok u →
    Phase (Status u) = BackupPhaseFailedValidation →
    Reconcile key w
      (mkOutcome None (world p1) ([log_running; log_getting; log_cloning] ++ events p1))
| RecExecuted ns name backup p1 u r p2 :
    SplitMetaNamespaceKey c key = Ok (ns, name) →
    lister_Get c ns name = Ok backup →
    phase_is_new (Phase (Status backup)) = true →
    p1 = patchBackup c backup (stamped backup w) (stamp_world backup w) →
    res p1 = Ok u →
    Phase (Status u) ≠ BackupPhaseFailedValidation →
    r = runBackup c u (resolved backup w) (track (Namespace u) (Name u) (world p1)) →
    p2 = patchBackup c u (decided r) (world r) →
    Reconcile key w
      (mkOutcome None (untrack (Namespace u) (Name u) (world p2))
         ([log_running; log_getting; log_cloning] ++ events p1 ++
          [EvTrackerAdd (Namespace u) (Name u);
           EvLog ControllerLog DebugLevel "Running backup";
           EvRegisterBackupAttempt (GetLabel "ark-schedule" u)] ++
          events r ++
          verdict_events (GetLabel "ark-schedule" u) r ++
          [EvLog ControllerLog DebugLevel "Updating backup's final status"] ++
          events p2 ++
          match res p2 with
          | Err _ => [EvLog ControllerLog ErrorLevel "error updating backup's final status"]
          | Ok _ => []
          end ++
          [EvTrackerDelete (Namespace u) (Name u)])).

End ReconcilerObservations.

(** The requests and collaborators of the examples. *)

Definition example_key : string := "heptio-ark/nightly".

Definition example_clock (n : nat) : Time := 100 + 5 * Z.of_nat n.

(** A new request with a TTL, all namespaces but one excluded twice. *)
Definition example_new : Backup :=
  example_backup BackupPhaseNew (example_spec 10 ["*"] ["kube-system"; "kube-system"]).

(** A request already completed. *)
Definition example_completed : Backup :=
  example_backup BackupPhaseCompleted (example_spec 10 ["*"] []).

(** A request in progress, as the pipeline receives it. *)
Definition example_in_progress : Backup :=
  example_backup BackupPhaseInProgress (example_spec 10 ["*"] []).

(** A new request that includes and excludes the same namespace. *)
Definition example_contradictory : Backup :=
  example_backup BackupPhaseNew (example_spec 10 ["default"] ["default"]).

(** A new request for a storage location that does not exist. *)
Definition example_elsewhere : Backup :=
  example_backup BackupPhaseNew (mkBackupSpec 10 "missing" [] [] ["*"] [] None).

(** Every collaborator succeeds. *)
Definition env_ok : Env :=
  example_env (Ok example_new) example_clock (λ _, None) None None None None.

(** The cache holds a completed request. *)
Definition env_completed : Env :=
  example_env (Ok example_completed) example_clock (λ _, None) None None None None.

(** The request is not in the cache. *)
Definition env_not_found : Env :=
  example_env (Err (ErrMsg "backup not found")) example_clock (λ _, None)
    None None None None.

(** The plugin manager cannot load the item actions. *)
Definition env_no_actions : Env :=
  example_env (Ok example_new) example_clock (λ _, None)
    (Some (ErrMsg "plugin exited")) None None None.

(** The Backupper fails. *)
Definition env_backupper_fails : Env :=
  example_env (Ok example_new) example_clock (λ _, None)
    None (Some (ErrMsg "error backing up item")) None None.

(** The final flush of the log stream fails. *)
Definition env_flush_fails : Env :=
  example_env (Ok example_new) example_clock (λ _, None)
    None None (Some (ErrMsg "short write")) None.

(** The store refuses the second patch request. *)
Definition env_terminal_patch_fails : Env :=
  example_env (Ok example_new) example_clock
    (λ n, match n with 1%nat => Some (ErrMsg "connection refused") | _ => None end)
    None None None None.

(** The cache holds the request with contradictory lists. *)
Definition env_contradictory : Env :=
  example_env (Ok example_contradictory) example_clock (λ _, None) None None None None.

(** The request the store holds at the end of a run. *)
Definition stored (o : Outcome (option GoError)) (b : Backup) : option Backup :=
  w_server (world o) !! (Namespace b, Name b).

(** ** The informer's event handler *)

(** The [AddFunc] handler that [NewBackupController] registers with the
    backup informer.  [Q] is the work queue and [queue_Add] its [Add];
    [MetaNamespaceKeyFunc] is [cache.MetaNamespaceKeyFunc].  The handler
    returns the queue and the lines it logs. *)
Definition AddFunc {Q : Type} (queue_Add : string → Q → Q)
    (MetaNamespaceKeyFunc : Backup → result string)
    (backup : Backup) (queue : Q) : Q * list Event :=
  if String.eqb (Phase (Status backup)) "" ||
     String.eqb (Phase (Status backup)) BackupPhaseNew
  then
    (* only process new backups *)
    match MetaNamespaceKeyFunc backup with
    | Err _ =>
        (queue, [EvLog ControllerLog ErrorLevel
                   "Error creating queue key, item not added to queue"])
    | Ok key => (queue_Add key queue, [])
    end
  else (queue, [EvLog ControllerLog DebugLevel "Backup is not new, skipping"]).

(** ** Further observations on a run *)

(** The temporary files a run created, closed and removed, in order. *)
Definition created_files (evs : list Event) : list File :=
  flat_map (λ e, match e with EvTempFile (Ok f) => [f] | _ => [] end) evs.
Definition closed_files (evs : list Event) : list File :=
  flat_map (λ e, match e with EvFileClose f => [f] | _ => [] end) evs.
Definition removed_files (evs : list Event) : list File :=
  flat_map (λ e, match e with EvRemove f => [f] | _ => [] end) evs.

(** The plugin managers a run created, and the clean-ups it did. *)
Definition plugin_managers (evs : list Event) : list Event :=
  List.filter (λ e, match e with EvNewPluginManager => true | _ => false end) evs.
Definition plugin_cleanups (evs : list Event) : list Event :=
  List.filter (λ e, match e with EvCleanupClients => true | _ => false end) evs.

(** The uploads of a run. *)
Definition uploads (evs : list Event) : list Event :=
  List.filter is_upload_step evs.

(** The attempt, success and failure metrics of a run, in order. *)
Definition reconciler_metrics (evs : list Event) : list Event :=
  List.filter (λ e, match e with
                    | EvRegisterBackupAttempt _ | EvRegisterBackupSuccess _
                    | EvRegisterBackupFailed _ => true
                    | _ => false
                    end) evs.

(** The schedule labels the metrics of a run are keyed by. *)
Definition metric_schedules (evs : list Event) : list string :=
  flat_map (λ e, match e with
                 | EvRegisterBackupAttempt s | EvRegisterBackupSuccess s
                 | EvRegisterBackupFailed s | EvSetBackupTarballSizeBytesGauge s _
                 | EvRegisterBackupDuration s _ => [s]
                 | _ => []
                 end) evs.

Section PipelinePaths.

Context (c : Env).

(** The release of the log file and of its compressed stream, deferred. *)
Definition release_log (logFile : File) : list Event :=
  [EvFileClose logFile; EvRemove logFile; EvGzipClose logFile].

(** The effects of [runBackup], path by path: the four early returns and
    the full run. *)
Definition pipeline_effects (backup : Backup)
    (backupLocation : option BackupStorageLocation) (w : World) : list Event :=
  match ioutil_TempFile c (w_tempfiles w) with
  | Err e => [EvTempFile (Err e)]
  | Ok logFile =>
  match ioutil_TempFile c (S (w_tempfiles w)) with
  | Err e => [EvTempFile (Ok logFile); EvTempFile (Err e)] ++ release_log logFile
  | Ok archive =>
  match GetBackupItemActions_err c with
  | Some _ =>
      [EvTempFile (Ok logFile); EvTempFile (Ok archive); EvNewPluginManager;
       EvGetBackupItemActions; EvCleanupClients; EvFileClose archive; EvRemove archive]
      ++ release_log logFile
  | None =>
  match newBackupStore_err c backupLocation with
  | Some _ =>
      [EvTempFile (Ok logFile); EvTempFile (Ok archive); EvNewPluginManager;
       EvGetBackupItemActions; EvNewBackupStore backupLocation;
       EvCleanupClients; EvFileClose archive; EvRemove archive]
      ++ release_log logFile
  | None => full_run c backup backupLocation w logFile archive
  end end end end.

(** What [runBackup] returns, path by path. *)
Definition pipeline_result (backup : Backup)
    (backupLocation : option BackupStorageLocation) (w : World)
  : Backup * option GoError :=
  match ioutil_TempFile c (w_tempfiles w) with
  | Err e =>
      (started c backup w, Some (ErrWrap e "error creating temp file for backup log"))
  | Ok logFile =>
  match ioutil_TempFile c (S (w_tempfiles w)) with
  | Err e =>
      (started c backup w, Some (ErrWrap e "error creating temp file for backup"))
  | Ok archive =>
  match GetBackupItemActions_err c with
  | Some e => (started c backup w, Some e)
  | None =>
  match newBackupStore_err c backupLocation with
  | Some e => (started c backup w, Some e)
  | None =>
      (finished c backup w archive, NewAggregate (collected c backup w logFile archive))
  end end end end.

End PipelinePaths.

(** ** Further requests and collaborators *)

(** A new request without a TTL. *)
Definition example_no_ttl : Backup :=
  example_backup BackupPhaseNew (example_spec 0 ["*"] []).

(** The store refuses the first patch request. *)
Definition env_first_patch_fails : Env :=
  example_env (Ok example_new) example_clock
    (λ n, match n with 0%nat => Some (ErrMsg "connection refused") | _ => None end)
    None None None None.

(** The cache holds the request without a TTL. *)
Definition env_no_ttl : Env :=
  example_env (Ok example_no_ttl) example_clock (λ _, None) None None None None.

(** The encoding of the request fails. *)
Definition env_encode_fails : Env :=
  mkEnv true "default" "ark.heptio.com/storage-location"
    (SplitMetaNamespaceKey env_ok) (lister_Get env_ok) (backupLocationLister_Get env_ok)
    example_clock (λ _, None) (λ _ _, None) (λ _, None)
    (ioutil_TempFile env_ok) (λ _, None) (λ _, None) (λ _, Ok 4096) (λ _, None)
    None (λ _, None) (λ _ _, None)
    (λ _, Some (ErrMsg "unsupported type")) (λ _ _ _ _, None).

(** A new request that asks for volume snapshots. *)
Definition example_snapshots : Backup :=
  example_backup BackupPhaseNew (mkBackupSpec 10 "" [] [] ["*"] [] (Some true)).

(** No volume-snapshot provider is configured. *)
Definition env_no_provider : Env :=
  mkEnv false "default" "ark.heptio.com/storage-location"
    (SplitMetaNamespaceKey env_ok) (λ _ _, Ok example_snapshots)
    (backupLocationLister_Get env_ok)
    example_clock (λ _, None) (λ _ _, None) (λ _, None)
    (ioutil_TempFile env_ok) (λ _, None) (λ _, None) (λ _, Ok 4096) (λ _, None)
    None (λ _, None) (λ _ _, None) (λ _, None) (λ _ _ _ _, None).

(** The snapshots of a request cannot be marshalled. *)
Definition env_marshal_fails : Env :=
  mkEnv true "default" "ark.heptio.com/storage-location"
    (SplitMetaNamespaceKey env_ok) (lister_Get env_ok) (backupLocationLister_Get env_ok)
    example_clock (λ _, Some (ErrMsg "json: unsupported value")) (λ _ _, None) (λ _, None)
    (ioutil_TempFile env_ok) (λ _, None) (λ _, None) (λ _, Ok 4096) (λ _, None)
    None (λ _, None) (λ _ _, None) (λ _, None) (λ _ _ _ _, None).

(** The cache as it is once the informer has seen the outcome of a
    reconcile of the example request. *)
Definition env_redelivered : Env :=
  example_env
    (match stored (processBackup env_ok example_key (example_world example_new))
             example_new with
     | Some b => Ok b
     | None => Err (ErrMsg "backup not found")
     end)
    example_clock (λ _, None) None None None None.

(** A work queue as the list of the keys added to it. *)
Definition example_queue_Add (key : string) (q : list string) : list string :=
  q ++ [key].

(** The key of a request, as namespace/name. *)
Definition example_keyFunc (b : Backup) : result string :=
  Ok (Namespace b +:+ "/" +:+ Name b).

(** * Properties *)

(** ** The pipeline, [runBackup] *)

Section Pipeline.

Context (c : Env).

Ltac step :=
  match goal with
  | |- context [match ?x with _ => _ end] =>
      lazymatch x with
      | context [match _ with _ => _ end] => fail
      | _ => destruct x eqn:?
      end
  end.

Ltac run_pipeline :=
  unfold runBackup, closeAndRemoveFile, with_defer, bind, emit, log, ret, TempFile, clock_now;
  cbn.

Lemma runBackup_full (backup : Backup) (backupLocation : option BackupStorageLocation)
    (w : World) (logFile archive : File) :
  ioutil_TempFile c (w_tempfiles w) = Ok logFile →
  ioutil_TempFile c (S (w_tempfiles w)) = Ok archive →
  GetBackupItemActions_err c = None →
  newBackupStore_err c backupLocation = None →
  res (runBackup c backup backupLocation w) =
    (finished c backup w archive, NewAggregate (collected c backup w logFile archive)) ∧
  effects (events (runBackup c backup backupLocation w)) =
    full_run c backup backupLocation w logFile archive.
Proof.
  intros H1 H2 H3 H4.
  unfold collected, full_run, finished, started.
  run_pipeline.
  rewrite H1; cbn. rewrite H2; cbn. rewrite H3; cbn. rewrite H4; cbn.
  repeat (step; cbn).
  all: split; reflexivity.
Qed.

Lemma acquired_true (backupLocation : option BackupStorageLocation) (w : World) :
  acquired c backupLocation w = true →
  ∃ logFile archive,
    ioutil_TempFile c (w_tempfiles w) = Ok logFile ∧
    ioutil_TempFile c (S (w_tempfiles w)) = Ok archive ∧
    GetBackupItemActions_err c = None ∧
    newBackupStore_err c backupLocation = None.
Proof.
  unfold acquired. intros H.
  destruct (ioutil_TempFile c (w_tempfiles w)) as [lf|]; [|discriminate].
  destruct (ioutil_TempFile c (S (w_tempfiles w))) as [bf|]; [|discriminate].
  destruct (GetBackupItemActions_err c); [discriminate|].
  destruct (newBackupStore_err c backupLocation); [discriminate|].
  exists lf, bf. auto.
Qed.

(** An early return: an error, the request only stamped with its start, and
    none of the later steps. *)
Lemma runBackup_early (backup : Backup) (backupLocation : option BackupStorageLocation)
    (w : World) :
  acquired c backupLocation w = false →
  fst (res (runBackup c backup backupLocation w)) = started c backup w ∧
  snd (res (runBackup c backup backupLocation w)) ≠ None ∧
  existsb (λ e, is_archive_step e || is_size_step e || is_upload_step e || is_metrics_step e)
    (events (runBackup c backup backupLocation w)) = false.
Proof.
  unfold acquired, started. run_pipeline.
  destruct (ioutil_TempFile c (w_tempfiles w)) as [lf|] eqn:H1; cbn.
  2: { intros _. repeat split; congruence. }
  destruct (ioutil_TempFile c (S (w_tempfiles w))) as [bf|] eqn:H2; cbn.
  2: { intros _. repeat (step; cbn). all: repeat split; congruence. }
  destruct (GetBackupItemActions_err c) eqn:H3; cbn.
  1: { intros _. repeat (step; cbn). all: repeat split; congruence. }
  destruct (newBackupStore_err c backupLocation) eqn:H4; cbn.
  1: { intros _. repeat (step; cbn). all: repeat split; congruence. }
  discriminate.
Qed.

(** What no run of the pipeline touches. *)
Lemma runBackup_frame (backup : Backup) (backupLocation : option BackupStorageLocation)
    (w : World) :
  w_server (world (runBackup c backup backupLocation w)) = w_server w ∧
  w_tracker (world (runBackup c backup backupLocation w)) = w_tracker w ∧
  w_patches (world (runBackup c backup backupLocation w)) = w_patches w ∧
  same_request backup (fst (res (runBackup c backup backupLocation w))) ∧
  StartTimestamp (Status (fst (res (runBackup c backup backupLocation w))))
    = clock_Now c (w_clock w) ∧
  pipeline_only (events (runBackup c backup backupLocation w)) = true.
Proof.
  unfold same_request. run_pipeline.
  repeat (step; cbn).
  all: repeat split; reflexivity.
Qed.

End Pipeline.

(** ** Observations *)

Lemma effects_app (l1 l2 : list Event) : effects (l1 ++ l2) = effects l1 ++ effects l2.
Proof. apply List.filter_app. Qed.

Lemma patch_calls_app (l1 l2 : list Event) :
  patch_calls (l1 ++ l2) = patch_calls l1 ++ patch_calls l2.
Proof. apply flat_map_app. Qed.

Lemma patch_requests_app (l1 l2 : list Event) :
  patch_requests (l1 ++ l2) = patch_requests l1 ++ patch_requests l2.
Proof. apply flat_map_app. Qed.

Lemma tracker_events_app (l1 l2 : list Event) :
  tracker_events (l1 ++ l2) = tracker_events l1 ++ tracker_events l2.
Proof. apply List.filter_app. Qed.

Lemma elem_of_effects (e : Event) (evs : list Event) :
  e ∈ effects evs ↔ e ∈ evs ∧ is_observation e = false.
Proof.
  unfold effects. rewrite !list_elem_of_In, List.filter_In.
  destruct (is_observation e); cbn; intuition congruence.
Qed.

Lemma pipeline_only_elem (evs : list Event) (e : Event) :
  pipeline_only evs = true → e ∈ evs → is_pipeline_event e || is_log e = true.
Proof.
  unfold pipeline_only. rewrite forallb_forall, list_elem_of_In. auto.
Qed.

Lemma pipeline_only_obs (evs : list Event) :
  pipeline_only evs = true →
  patch_calls evs = [] ∧ patch_requests evs = [] ∧ tracker_events evs = [].
Proof.
  induction evs as [|e evs IH]; cbn; [auto|].
  intros [He Hr]%andb_prop. destruct (IH Hr) as (H1 & H2 & H3).
  destruct e; cbn in *; try discriminate; auto.
Qed.

Lemma existsb_false_elem (f : Event → bool) (evs : list Event) (e : Event) :
  existsb f evs = false → e ∈ evs → f e = false.
Proof.
  intros H Hin. destruct (f e) eqn:Hf; [|reflexivity].
  assert (existsb f evs = true); [|congruence].
  apply existsb_exists. exists e. split; [by apply list_elem_of_In|done].
Qed.

Lemma existsb_effects (f : Event → bool) (evs : list Event) :
  (∀ e, is_observation e = true → f e = false) →
  existsb f (effects evs) = existsb f evs.
Proof.
  intros Hf. induction evs as [|e evs IH]; cbn; [done|].
  fold (effects evs).
  destruct (is_observation e) eqn:Ho; cbn; rewrite IH; [|done].
  by rewrite (Hf e Ho).
Qed.

(** ** The merge patch *)

Lemma default_diff_field {A : Type} `{EqDecision A} (o u : A) :
  default o (diff_field o u) = u.
Proof. unfold diff_field. case_decide; cbn; congruence. Qed.

(** Applied to the snapshot it was computed from, the patch yields the
    status of the updated snapshot. *)
Lemma applyMergePatch_Status (original updated : Backup) :
  Status (applyMergePatch (CreateMergePatch original updated) original) = Status updated.
Proof.
  unfold applyMergePatch, CreateMergePatch; cbn.
  rewrite !default_diff_field. by destruct (Status updated).
Qed.

(** A phase the patch changes is the phase of the merged object, whatever
    the store held. *)
Lemma applyMergePatch_Phase (original updated obj : Backup) :
  Phase (Status original) ≠ Phase (Status updated) →
  Phase (Status (applyMergePatch (CreateMergePatch original updated) obj))
    = Phase (Status updated).
Proof.
  intros Hne. unfold applyMergePatch, CreateMergePatch, diff_field; cbn.
  case_decide; [contradiction|reflexivity].
Qed.

(** ** Validation *)

Lemma wildcard_mixed_true (l : list string) :
  "*" ∈ l → (∃ n, n ∈ l ∧ n ≠ "*") → wildcard_mixed l = true.
Proof.
  intros Hw (n & Hn & Hne). unfold wildcard_mixed.
  apply andb_true_intro. split.
  - by apply bool_decide_eq_true.
  - apply existsb_exists. exists n. split; [by apply list_elem_of_In|].
    apply negb_true_iff. by apply String.eqb_neq.
Qed.

Lemma ValidateIncludesExcludes_contradictory (includesList excludesList : list string) :
  contradictory includesList excludesList →
  ValidateIncludesExcludes includesList excludesList ≠ [].
Proof.
  unfold ValidateIncludesExcludes.
  intros [(n & Hi & He) | [[Hw Hn] | [Hw Hn]]].
  - intros (_ & (_ & Hm)%app_eq_nil)%app_eq_nil.
    apply map_eq_nil in Hm.
    assert (Hin : n ∈ filter (λ itm, itm ∈ includesList) excludesList).
    { apply list_elem_of_filter. auto. }
    rewrite Hm in Hin. by apply not_elem_of_nil in Hin.
  - rewrite (wildcard_mixed_true _ Hw Hn). discriminate.
  - rewrite (wildcard_mixed_true _ Hw Hn).
    intros (_ & (Hm & _)%app_eq_nil)%app_eq_nil. discriminate.
Qed.

Section Validation.
Context (c : Env).

(** Validation rewrites the storage location and the labels, nothing else. *)
Lemma getLocationAndValidate_frame (itm : Backup) (dflt : string) :
  let itm' := (getLocationAndValidate c itm dflt).1.1 in
  Namespace itm' = Namespace itm ∧ Name itm' = Name itm ∧ Status itm' = Status itm ∧
  TTL (Spec itm') = TTL (Spec itm) ∧
  StorageLocation (Spec itm') =
    (if String.eqb (StorageLocation (Spec itm)) "" then dflt else StorageLocation (Spec itm)) ∧
  Labels itm' !! StorageLocationLabel c = Some (StorageLocation (Spec itm')).
Proof.
  unfold getLocationAndValidate.
  destruct (String.eqb (StorageLocation (Spec itm)) ""); cbn.
  all: destruct (backupLocationLister_Get c _ _) as [loc|e]; cbn.
  all: rewrite lookup_insert_eq; repeat split; reflexivity.
Qed.

Lemma getLocationAndValidate_lookup (itm : Backup) (dflt : string) (err : GoError) :
  backupLocationLister_Get c (Namespace itm)
    (if String.eqb (StorageLocation (Spec itm)) "" then dflt else StorageLocation (Spec itm))
    = Err err →
  (getLocationAndValidate c itm dflt).1.2 = None ∧
  (getLocationAndValidate c itm dflt).2 ≠ [].
Proof.
  unfold getLocationAndValidate.
  destruct (String.eqb (StorageLocation (Spec itm)) ""); cbn.
  all: intros ->; cbn; split; [reflexivity|].
  all: intros Hnil; apply app_eq_nil in Hnil as [_ Hnil]; discriminate.
Qed.

Lemma getLocationAndValidate_contradictory (itm : Backup) (dflt : string) :
  contradictory (IncludedResources (Spec itm)) (ExcludedResources (Spec itm)) ∨
  contradictory (IncludedNamespaces (Spec itm)) (ExcludedNamespaces (Spec itm)) →
  (getLocationAndValidate c itm dflt).2 ≠ [].
Proof.
  intros H.
  assert (Hm : map (λ err, "Invalid included/excluded resource lists: " +:+ Error err)
                 (ValidateIncludesExcludes (IncludedResources (Spec itm))
                    (ExcludedResources (Spec itm))) ++
               map (λ err, "Invalid included/excluded namespace lists: " +:+ Error err)
                 (ValidateIncludesExcludes (IncludedNamespaces (Spec itm))
                    (ExcludedNamespaces (Spec itm))) ≠ []).
  { intros [H1 H2]%app_eq_nil. apply map_eq_nil in H1, H2.
    destruct H as [H|H]; apply ValidateIncludesExcludes_contradictory in H; contradiction. }
  unfold getLocationAndValidate. cbn.
  destruct (_ && _); destruct (backupLocationLister_Get c _ _); cbn.
  all: intros Hnil;
    repeat match type of Hnil with
           | _ ++ [_] = [] => apply app_eq_nil in Hnil as [Hnil _]
           end;
    apply Hm; assumption.
Qed.

End Validation.

(** ** The status-patch protocol, [patchBackup] *)

Section Patch.
Context (c : Env).

Lemma patchBackup_spec (original updated : Backup) (w : World) :
  let o := patchBackup c original updated w in
  let p := CreateMergePatch original updated in
  let key := (Namespace original, Name original) in
  w_clock (world o) = w_clock w ∧
  w_tempfiles (world o) = w_tempfiles w ∧
  w_tracker (world o) = w_tracker w ∧
  match res o with
  | Ok u =>
      events o = [EvPatch (Namespace original) (Name original) p;
                  EvPatchBackup original updated (Ok u)] ∧
      w_patches (world o) = S (w_patches w) ∧
      ∃ obj, w_server w !! key = Some obj ∧
             u = applyMergePatch p obj ∧
             w_server (world o) = <[key := u]> (w_server w)
  | Err e =>
      w_server (world o) = w_server w ∧
      (events o = [EvPatchBackup original updated (Err e)] ∨
       events o = [EvPatch (Namespace original) (Name original) p;
                   EvPatchBackup original updated (Err e)])
  end.
Proof.
  unfold patchBackup, client_Patch, bind, emit, ret; cbn.
  destruct (json_Marshal_err c original); cbn; [auto 10|].
  destruct (json_Marshal_err c updated); cbn; [auto 10|].
  destruct (CreateMergePatch_err c original updated); cbn; [auto 10|].
  destruct (Patch_err c (w_patches w)); cbn; [auto 10|].
  destruct (w_server w !! (Namespace original, Name original)) eqn:Hs; cbn; [|auto 10].
  repeat split; eauto.
Qed.

(** The events of a call: at most one request to the store, then the record
    of the call. *)
Lemma patchBackup_events (original updated : Backup) (w : World) :
  let o := patchBackup c original updated w in
  events o = [EvPatchBackup original updated (res o)] ∨
  events o = [EvPatch (Namespace original) (Name original) (CreateMergePatch original updated);
              EvPatchBackup original updated (res o)].
Proof.
  cbn. pose proof (patchBackup_spec original updated w) as H. cbn in H.
  destruct (res (patchBackup c original updated w)); intuition.
Qed.

Lemma patchBackup_patch_calls (original updated : Backup) (w : World) :
  patch_calls (events (patchBackup c original updated w))
    = [(original, updated, res (patchBackup c original updated w))].
Proof. destruct (patchBackup_events original updated w) as [-> | ->]; reflexivity. Qed.

Lemma patchBackup_tracker_events (original updated : Backup) (w : World) :
  tracker_events (events (patchBackup c original updated w)) = [].
Proof. destruct (patchBackup_events original updated w) as [-> | ->]; reflexivity. Qed.

Lemma patchBackup_elem (original updated : Backup) (w : World) (e : Event) :
  e ∈ events (patchBackup c original updated w) →
  e = EvPatch (Namespace original) (Name original) (CreateMergePatch original updated) ∨
  e = EvPatchBackup original updated (res (patchBackup c original updated w)).
Proof.
  destruct (patchBackup_events original updated w) as [-> | ->];
    rewrite ?elem_of_cons, elem_of_nil; tauto.
Qed.

Lemma patchBackup_patch_requests (original updated : Backup) (w : World) (p : MergePatch) :
  p ∈ patch_requests (events (patchBackup c original updated w)) →
  p = CreateMergePatch original updated.
Proof.
  destruct (patchBackup_events original updated w) as [-> | ->]; cbn;
    rewrite ?elem_of_cons, elem_of_nil; tauto.
Qed.

End Patch.

(** ** The pipeline, path by path *)

Section PipelineRuns.

Context (c : Env).

Ltac step :=
  match goal with
  | |- context [match ?x with _ => _ end] =>
      lazymatch x with
      | context [match _ with _ => _ end] => fail
      | _ => destruct x eqn:?
      end
  end.

Ltac run_pipeline :=
  unfold runBackup, closeAndRemoveFile, with_defer, bind, emit, log, ret, TempFile, clock_now;
  cbn.

(** Every run of [runBackup] follows one of the paths of
    [pipeline_effects], and returns what [pipeline_result] says. *)
Lemma runBackup_paths (backup : Backup) (loc : option BackupStorageLocation) (w : World) :
  res (runBackup c backup loc w) = pipeline_result c backup loc w ∧
  effects (events (runBackup c backup loc w)) = pipeline_effects c backup loc w.
Proof.
  unfold pipeline_result, pipeline_effects.
  destruct (ioutil_TempFile c (w_tempfiles w)) as [lf|e1] eqn:H1.
  2: { unfold started. run_pipeline. rewrite H1. cbn. auto. }
  destruct (ioutil_TempFile c (S (w_tempfiles w))) as [bf|e2] eqn:H2.
  2: { unfold started. run_pipeline. rewrite H1; cbn. rewrite H2; cbn.
       repeat (step; cbn). all: auto. }
  destruct (GetBackupItemActions_err c) as [e3|] eqn:H3.
  1: { unfold started. run_pipeline. rewrite H1; cbn. rewrite H2; cbn. rewrite H3; cbn.
       repeat (step; cbn). all: auto. }
  destruct (newBackupStore_err c loc) as [e4|] eqn:H4.
  1: { unfold started. run_pipeline. rewrite H1; cbn. rewrite H2; cbn. rewrite H3; cbn.
       rewrite H4; cbn. repeat (step; cbn). all: auto. }
  apply runBackup_full; assumption.
Qed.

Lemma flat_map_effects {A : Type} (g : Event → list A) (evs : list Event) :
  (∀ e, is_observation e = true → g e = []) →
  flat_map g (effects evs) = flat_map g evs.
Proof.
  intros Hg. induction evs as [|e evs IH]; cbn; [done|].
  fold (effects evs).
  destruct (is_observation e) eqn:Ho; cbn; rewrite IH; [|done].
  by rewrite (Hg e Ho).
Qed.

Lemma filter_effects (f : Event → bool) (evs : list Event) :
  (∀ e, is_observation e = true → f e = false) →
  List.filter f (effects evs) = List.filter f evs.
Proof.
  intros Hf. induction evs as [|e evs IH]; cbn; [done|].
  fold (effects evs).
  destruct (is_observation e) eqn:Ho; cbn; rewrite IH; [|done].
  by rewrite (Hf e Ho).
Qed.

(** An effect of a run is one of the effects of its path. *)
Lemma pipeline_effect_elem (backup : Backup) (loc : option BackupStorageLocation)
    (w : World) (e : Event) :
  e ∈ events (runBackup c backup loc w) →
  is_observation e = false →
  e ∈ pipeline_effects c backup loc w.
Proof.
  intros Hin Ho. destruct (runBackup_paths backup loc w) as [_ <-].
  by apply elem_of_effects.
Qed.

(** Split a membership in an explicit list of events. *)
Ltac split_effects H :=
  repeat first
    [ apply elem_of_cons in H as [H | H]
    | apply elem_of_nil in H as [] ].

Ltac pipeline_paths backup loc w :=
  unfold pipeline_effects, pipeline_result, release_log, full_run in *;
  destruct (ioutil_TempFile c (w_tempfiles w)) as [lf|e1];
  [destruct (ioutil_TempFile c (S (w_tempfiles w))) as [bf|e2];
   [destruct (GetBackupItemActions_err c) as [e3|];
    [|destruct (newBackupStore_err c loc) as [e4|]]|]|];
  cbn in *.

(** X11.  The scoped resources of the pipeline.  On every path of
    [runBackup], early returns included and whatever closing or removing a
    file answers, the temporary files that were created are closed and
    removed, last created first; a plugin manager that was created is
    cleaned up; and when the log file was created the last effect of the
    run is the deferred close of its compressed stream. *)
Theorem temporary_files_are_released
    (backup : Backup) (loc : option BackupStorageLocation) (w : World) :
  closed_files (events (runBackup c backup loc w))
    = rev (created_files (events (runBackup c backup loc w))) ∧
  removed_files (events (runBackup c backup loc w))
    = rev (created_files (events (runBackup c backup loc w))) ∧
  length (plugin_cleanups (events (runBackup c backup loc w)))
    = length (plugin_managers (events (runBackup c backup loc w))) ∧
  (∀ logFile, ioutil_TempFile c (w_tempfiles w) = Ok logFile →
     last (effects (events (runBackup c backup loc w))) = Some (EvGzipClose logFile)).
Proof.
  unfold closed_files, removed_files, created_files, plugin_cleanups, plugin_managers.
  rewrite <- (flat_map_effects (λ e, match e with EvFileClose f => [f] | _ => [] end))
    by (by intros []).
  rewrite <- (flat_map_effects (λ e, match e with EvRemove f => [f] | _ => [] end))
    by (by intros []).
  rewrite <- (flat_map_effects (λ e, match e with EvTempFile (Ok f) => [f] | _ => [] end))
    by (by intros []).
  rewrite <- (filter_effects (λ e, match e with EvCleanupClients => true | _ => false end))
    by (by intros []).
  rewrite <- (filter_effects (λ e, match e with EvNewPluginManager => true | _ => false end))
    by (by intros []).
  destruct (runBackup_paths backup loc w) as [_ ->].
  pipeline_paths backup loc w.
  all: repeat split; try reflexivity.
  all: intros logFile [= <-]; reflexivity.
Qed.

(** X12.  What is uploaded.  [PutBackup] is called at most once in a run of
    [runBackup], under the name of the request and with the log file; the
    manifest and the archive are handed over together, exactly when the
    request was encoded, and are both nil otherwise. *)
Theorem upload_is_manifest_and_archive_or_neither
    (backup : Backup) (loc : option BackupStorageLocation) (w : World)
    (name : string) (manifest : option Backup) (archive : option File) (logFile : File) :
  EvPutBackup name manifest archive logFile ∈ events (runBackup c backup loc w) →
  name = Name backup ∧
  ioutil_TempFile c (w_tempfiles w) = Ok logFile ∧
  uploads (events (runBackup c backup loc w))
    = [EvPutBackup name manifest archive logFile] ∧
  match encode_EncodeTo_err c (fst (res (runBackup c backup loc w))) with
  | Some _ => manifest = None ∧ archive = None
  | None =>
      is_Some manifest ∧
      ∃ f, archive = Some f ∧ ioutil_TempFile c (S (w_tempfiles w)) = Ok f
  end.
Proof.
  intros Hin%pipeline_effect_elem; [|reflexivity].
  unfold uploads.
  rewrite <- (filter_effects is_upload_step) by (by intros []).
  destruct (runBackup_paths backup loc w) as [-> ->].
  pipeline_paths backup loc w.
  all: split_effects Hin; try discriminate.
  injection Hin as -> -> -> ->.
  split; [reflexivity|]. split; [reflexivity|]. split; [reflexivity|].
  destruct (encode_EncodeTo_err c (finished c backup w bf)); [auto|].
  split; [eauto|]. eauto.
Qed.

(** X13.  The manifest is the request as returned.  The manifest a run
    uploads is the request exactly as [runBackup] hands it back to its
    caller: the completion timestamp is stamped before the encoding, it is
    the clock reading that follows the one of the start timestamp, and the
    phase is already Completed or Failed. *)
Theorem manifest_is_the_returned_request
    (backup : Backup) (loc : option BackupStorageLocation) (w : World)
    (name : string) (manifest : Backup) (archive : option File) (logFile : File) :
  EvPutBackup name (Some manifest) archive logFile ∈ events (runBackup c backup loc w) →
  manifest = fst (res (runBackup c backup loc w)) ∧
  StartTimestamp (Status manifest) = clock_Now c (w_clock w) ∧
  CompletionTimestamp (Status manifest) = clock_Now c (S (w_clock w)) ∧
  (Phase (Status manifest) = BackupPhaseCompleted ∨
   Phase (Status manifest) = BackupPhaseFailed) ∧
  same_request backup manifest.
Proof.
  intros Hin%pipeline_effect_elem; [|reflexivity].
  destruct (runBackup_paths backup loc w) as [-> _].
  pipeline_paths backup loc w.
  all: split_effects Hin; try discriminate.
  injection Hin as _ Hm _ _.
  destruct (encode_EncodeTo_err c (finished c backup w bf)); [discriminate|].
  injection Hm as Hm. subst manifest.
  unfold finished, started, same_request. cbn.
  destruct (backupper_Backup c _ bf); cbn; repeat split; auto.
Qed.

(** X14.  The metrics of the pipeline.  The duration a run reports is the
    time between its two clock readings in whole seconds, truncated: it is
    0 for a run shorter than a second and never negative when the clock
    does not go back.  The size it reports is the size of the archive, or 0
    when the archive could not be inspected.  Both are keyed by the schedule
    label of the request. *)
Theorem pipeline_metrics_values
    (backup : Backup) (loc : option BackupStorageLocation) (w : World) :
  (∀ schedule seconds,
     EvRegisterBackupDuration schedule seconds ∈ events (runBackup c backup loc w) →
     schedule = GetLabel "ark-schedule" backup ∧
     seconds = Z.quot (Time_Sub (clock_Now c (S (w_clock w))) (clock_Now c (w_clock w)))
                 time_Second ∧
     ((clock_Now c (w_clock w) ≤ clock_Now c (S (w_clock w)))%Z → (0 ≤ seconds)%Z) ∧
     ((0 ≤ clock_Now c (S (w_clock w)) - clock_Now c (w_clock w) < time_Second)%Z →
      seconds = 0)) ∧
  (∀ schedule size,
     EvSetBackupTarballSizeBytesGauge schedule size ∈ events (runBackup c backup loc w) →
     schedule = GetLabel "ark-schedule" backup ∧
     ∃ f, ioutil_TempFile c (S (w_tempfiles w)) = Ok f ∧
          size = match file_Stat c f with Ok n => n | Err _ => 0 end).
Proof.
  split.
  - intros schedule seconds Hin%pipeline_effect_elem; [|reflexivity].
    pipeline_paths backup loc w.
    all: split_effects Hin; try discriminate.
    injection Hin as -> ->.
    split; [reflexivity|]. split; [reflexivity|].
    unfold Time_Sub, time_Second, minDuration, maxDuration. split.
    + intros Hmono. apply Z.quot_pos; lia.
    + intros Hshort. apply Z.quot_small. lia.
  - intros schedule size Hin%pipeline_effect_elem; [|reflexivity].
    pipeline_paths backup loc w.
    all: split_effects Hin; try discriminate.
    injection Hin as -> ->. eauto.
Qed.

(** Every metric of the pipeline is keyed by the schedule label of the
    request it was given. *)
Lemma run_metric_schedules (backup : Backup) (loc : option BackupStorageLocation)
    (w : World) (s : string) :
  s ∈ metric_schedules (events (runBackup c backup loc w)) →
  s = GetLabel "ark-schedule" backup.
Proof.
  unfold metric_schedules.
  rewrite <- (flat_map_effects _ (events (runBackup c backup loc w))) by (by intros []).
  destruct (runBackup_paths backup loc w) as [_ ->].
  pipeline_paths backup loc w.
  all: intros Hin; split_effects Hin; done.
Qed.

(** A pipeline that did not obtain its files, actions and store uploads
    nothing; one that did calls the Backupper. *)
Lemma run_uploads_early (backup : Backup) (loc : option BackupStorageLocation) (w : World) :
  acquired c loc w = false → uploads (events (runBackup c backup loc w)) = [].
Proof.
  unfold uploads, acquired.
  rewrite <- (filter_effects is_upload_step) by (by intros []).
  destruct (runBackup_paths backup loc w) as [_ ->].
  pipeline_paths backup loc w; try reflexivity. discriminate.
Qed.

Lemma run_backupper_acquired (backup : Backup) (loc : option BackupStorageLocation)
    (w : World) :
  acquired c loc w = true →
  ∃ b f, EvBackupperBackup b f ∈ events (runBackup c backup loc w).
Proof.
  intros (lf & bf & H1 & H2 & H3 & H4)%acquired_true.
  destruct (runBackup_full c backup loc w lf bf H1 H2 H3 H4) as [_ Heff].
  exists (started c backup w), bf.
  apply (elem_of_effects _ (events (runBackup c backup loc w))).
  rewrite Heff. unfold full_run. do 5 apply list_elem_of_further. apply list_elem_of_here.
Qed.

(** The object store is created for the location the pipeline was given. *)
Lemma run_store_location (backup : Backup) (loc loc' : option BackupStorageLocation)
    (w : World) :
  EvNewBackupStore loc' ∈ events (runBackup c backup loc w) → loc' = loc.
Proof.
  intros Hin%pipeline_effect_elem; [|reflexivity].
  pipeline_paths backup loc w.
  all: split_effects Hin; try discriminate.
  all: by injection Hin.
Qed.

End PipelineRuns.

(** ** Validation and the patch protocol, further *)

Section ValidationAndPatch.

Context (c : Env).

(** X15.  The snapshot check.  Validation reports that the server is not
    configured for PV snapshots exactly when no provider is configured and
    the request explicitly asks for snapshots: a request that leaves the
    flag unset, or sets it to false, is accepted without a provider.  When
    nothing else is wrong, it is the only error. *)
Theorem snapshot_error_iff_no_provider (itm : Backup) (dflt : string) :
  ("Server is not configured for PV snapshots" ∈ (getLocationAndValidate c itm dflt).2 ↔
   pvProviderExists c = false ∧ SnapshotVolumes (Spec itm) = Some true) ∧
  (ValidateIncludesExcludes (IncludedResources (Spec itm)) (ExcludedResources (Spec itm)) = [] →
   ValidateIncludesExcludes (IncludedNamespaces (Spec itm)) (ExcludedNamespaces (Spec itm)) = [] →
   (getLocationAndValidate c itm dflt).1.2 ≠ None →
   (getLocationAndValidate c itm dflt).2 =
     if negb (pvProviderExists c) && default false (SnapshotVolumes (Spec itm))
     then ["Server is not configured for PV snapshots"] else []).
Proof.
  unfold getLocationAndValidate. cbn.
  set (lres := ValidateIncludesExcludes (IncludedResources (Spec itm)) _).
  set (lns := ValidateIncludesExcludes (IncludedNamespaces (Spec itm)) _).
  assert (Hres : ∀ l, "Server is not configured for PV snapshots"
                      ∉ map (λ err, "Invalid included/excluded resource lists: "
                                    +:+ Error err) l).
  { intros l (x & Hx & _)%list_elem_of_fmap. discriminate. }
  assert (Hns : ∀ l, "Server is not configured for PV snapshots"
                     ∉ map (λ err, "Invalid included/excluded namespace lists: "
                                   +:+ Error err) l).
  { intros l (x & Hx & _)%list_elem_of_fmap. discriminate. }
  assert (Hsnap : negb (pvProviderExists c) &&
                  match SnapshotVolumes (Spec itm) with Some v => v | None => false end = true
                  ↔ pvProviderExists c = false ∧ SnapshotVolumes (Spec itm) = Some true).
  { destruct (pvProviderExists c), (SnapshotVolumes (Spec itm)) as [[]|]; cbn;
      intuition congruence. }
  split.
  - destruct (negb (pvProviderExists c) && _) eqn:Hpv;
      destruct (backupLocationLister_Get c _ _) as [l|e]; cbn;
      rewrite ?elem_of_app, ?elem_of_cons, ?elem_of_nil.
    + split; [intros _; by apply Hsnap|]. intros _. right. by left.
    + split; [intros _; by apply Hsnap|]. intros _. left. right. by left.
    + split; [|intros H%Hsnap; discriminate].
      intros [H|H]; [by apply Hres in H | by apply Hns in H].
    + split; [|intros H%Hsnap; discriminate].
      intros [[H|H]|[H|[]]]; [by apply Hres in H | by apply Hns in H | discriminate].
  - intros -> -> Hloc.
    destruct (backupLocationLister_Get c _ _) as [l|e]; cbn in *; [|contradiction].
    destruct (SnapshotVolumes (Spec itm)) as [v|]; cbn;
      by destruct (negb (pvProviderExists c) && _).
Qed.

(** X16.  What validation rewrites.  [getLocationAndValidate] changes the
    request only in its storage location and in the label that records it:
    every other label is kept as it was (the schedule label in particular),
    and so are the identity, the status and the rest of the spec. *)
Theorem validation_keeps_other_labels (itm : Backup) (dflt : string) :
  let itm' := (getLocationAndValidate c itm dflt).1.1 in
  (∀ k, k ≠ StorageLocationLabel c → Labels itm' !! k = Labels itm !! k) ∧
  (StorageLocationLabel c ≠ "ark-schedule" →
   GetLabel "ark-schedule" itm' = GetLabel "ark-schedule" itm) ∧
  Namespace itm' = Namespace itm ∧ Name itm' = Name itm ∧ Status itm' = Status itm ∧
  TTL (Spec itm') = TTL (Spec itm) ∧
  IncludedResources (Spec itm') = IncludedResources (Spec itm) ∧
  ExcludedResources (Spec itm') = ExcludedResources (Spec itm) ∧
  IncludedNamespaces (Spec itm') = IncludedNamespaces (Spec itm) ∧
  ExcludedNamespaces (Spec itm') = ExcludedNamespaces (Spec itm) ∧
  SnapshotVolumes (Spec itm') = SnapshotVolumes (Spec itm).
Proof.
  unfold getLocationAndValidate, GetLabel.
  destruct (String.eqb (StorageLocation (Spec itm)) ""); cbn.
  all: destruct (backupLocationLister_Get c _ _) as [l|e]; cbn.
  all: split; [intros k Hk; by apply lookup_insert_ne|].
  all: split; [intros Hk; by rewrite lookup_insert_ne|].
  all: repeat split; reflexivity.
Qed.

(** X17.  Local failures of the patch protocol.  When a snapshot cannot be
    marshalled or the merge patch cannot be created, [patchBackup] returns a
    wrapped error, sends nothing to the store and leaves the world as it
    was.  Otherwise it sends exactly one request, the merge patch of the two
    snapshots, addressed to the namespace and name of the original. *)
Theorem patchBackup_local_failures_send_nothing
    (original updated : Backup) (w : World) :
  (json_Marshal_err c original ≠ None ∨ json_Marshal_err c updated ≠ None ∨
   CreateMergePatch_err c original updated ≠ None →
   (∃ e msg, res (patchBackup c original updated w) = Err (ErrWrap e msg)) ∧
   world (patchBackup c original updated w) = w ∧
   effects (events (patchBackup c original updated w)) = []) ∧
  (json_Marshal_err c original = None → json_Marshal_err c updated = None →
   CreateMergePatch_err c original updated = None →
   effects (events (patchBackup c original updated w))
     = [EvPatch (Namespace original) (Name original) (CreateMergePatch original updated)] ∧
   w_patches (world (patchBackup c original updated w)) = S (w_patches w)).
Proof.
  unfold patchBackup, client_Patch, bind, emit, ret; cbn.
  destruct (json_Marshal_err c original) as [e1|]; cbn.
  { split; [intros _; eauto 10|discriminate]. }
  destruct (json_Marshal_err c updated) as [e2|]; cbn.
  { split; [intros _; eauto 10|discriminate]. }
  destruct (CreateMergePatch_err c original updated) as [e3|]; cbn.
  { split; [intros _; eauto 10|discriminate]. }
  split; [intros [H|[H|H]]; contradiction|]. intros _ _ _.
  destruct (Patch_err c (w_patches w)); cbn; [auto|].
  destruct (w_server w !! (Namespace original, Name original)); cbn; auto.
Qed.

(** A request without validation errors has its storage location. *)
Lemma getLocationAndValidate_resolved (itm : Backup) (dflt : string) :
  (getLocationAndValidate c itm dflt).2 = [] →
  ∃ l, (getLocationAndValidate c itm dflt).1.2 = Some l ∧
       backupLocationLister_Get c (Namespace itm)
         (StorageLocation (Spec (getLocationAndValidate c itm dflt).1.1)) = Ok l.
Proof.
  unfold getLocationAndValidate.
  destruct (String.eqb (StorageLocation (Spec itm)) ""); cbn.
  all: destruct (backupLocationLister_Get c _ _) as [l|e] eqn:Hl; cbn.
  all: try (intros [_ H]%app_eq_nil; discriminate).
  all: intros _; exists l; auto.
Qed.

End ValidationAndPatch.

(** ** The reconciler, [processBackup] *)

Section Reconciler.
Context (c : Env).

Ltac run_reconciler :=
  unfold processBackup, with_defer, bind, emit, log, ret, clock_now,
    backupTracker_Add, backupTracker_Delete;
  cbn.

#[local] Opaque runBackup patchBackup getLocationAndValidate.

Ltac stamp_cases backup :=
  unfold stamped, resolved, versioned, stamp_world, decided, verdict_events, track, untrack;
  cbn;
  destruct (0 <? TTL (Spec backup))%Z; cbn;
  destruct (getLocationAndValidate c _ _) as [[itm loc] errs]; cbn;
  destruct errs as [|err0 errs]; cbn.

(** Every run of [processBackup] takes one of the paths of [Reconcile]. *)
Lemma processBackup_Reconcile (key : string) (w : World) :
  Reconcile c key w (processBackup c key w).
Proof.
  destruct (SplitMetaNamespaceKey c key) as [[ns name]|e] eqn:Hk.
  2: { replace (processBackup c key w) with
         (mkOutcome (Some (ErrWrap e "error splitting queue key")) w [log_running]).
       - by apply RecBadKey.
       - run_reconciler. by rewrite Hk. }
  destruct (lister_Get c ns name) as [backup|e] eqn:Hg.
  2: { replace (processBackup c key w) with
         (mkOutcome (Some (ErrWrap e "error getting backup")) w [log_running; log_getting]).
       - by eapply RecNotFound.
       - run_reconciler. rewrite Hk; cbn. by rewrite Hg. }
  destruct (phase_is_new (Phase (Status backup))) eqn:Hp.
  2: { replace (processBackup c key w) with
         (mkOutcome (@None GoError) w [log_running; log_getting]).
       - by eapply RecNotNew.
       - run_reconciler. rewrite Hk; cbn. rewrite Hg; cbn. by rewrite Hp. }
  destruct (res (patchBackup c backup (stamped c backup w) (stamp_world backup w)))
    as [u|e] eqn:Hr1.
  2: { eapply (RecPatchFailed c key w) in Hr1 as Hrec; eauto.
       replace (processBackup c key w) with
         (mkOutcome
            (Some (ErrWrap e ("error updating Backup status to "
                              +:+ Phase (Status (stamped c backup w)))))
            (world (patchBackup c backup (stamped c backup w) (stamp_world backup w)))
            ([log_running; log_getting; log_cloning] ++
             events (patchBackup c backup (stamped c backup w) (stamp_world backup w))));
         [exact Hrec|].
       clear Hrec. revert Hr1.
       run_reconciler. rewrite Hk; cbn. rewrite Hg; cbn. rewrite Hp; cbn.
       stamp_cases backup.
       all: destruct (patchBackup c backup _ _) as [r1 w1 ev1]; cbn.
       all: intros ->; rewrite ?app_nil_r; reflexivity. }
  destruct (String.eqb (Phase (Status u)) BackupPhaseFailedValidation) eqn:Hfv.
  { apply String.eqb_eq in Hfv as Hfv'.
    eapply (RecFailedValidation c key w) in Hfv' as Hrec; eauto.
    replace (processBackup c key w) with
      (mkOutcome (@None GoError)
         (world (patchBackup c backup (stamped c backup w) (stamp_world backup w)))
         ([log_running; log_getting; log_cloning] ++
          events (patchBackup c backup (stamped c backup w) (stamp_world backup w))));
      [exact Hrec|].
    clear Hrec. revert Hr1.
    run_reconciler. rewrite Hk; cbn. rewrite Hg; cbn. rewrite Hp; cbn.
    stamp_cases backup.
    all: destruct (patchBackup c backup _ _) as [r1 w1 ev1]; cbn.
    all: intros ->; cbn; rewrite Hfv; rewrite ?app_nil_r; reflexivity. }
  apply String.eqb_neq in Hfv as Hfv'.
  pose proof (RecExecuted c key w ns name backup _ u _ _ Hk Hg Hp eq_refl Hr1 Hfv' eq_refl eq_refl)
    as Hrec.
  match type of Hrec with Reconcile _ _ _ ?o =>
    replace (processBackup c key w) with o; [exact Hrec|] end.
  clear Hrec. revert Hr1.
  run_reconciler. rewrite Hk; cbn. rewrite Hg; cbn. rewrite Hp; cbn.
  stamp_cases backup.
  all: destruct (patchBackup c backup _ _) as [r1 w1 ev1]; cbn.
  all: intros ->; cbn; rewrite Hfv; cbn.
  all: destruct (runBackup c u _ _) as [[b' [err|]] w2 ev2]; cbn.
  all: destruct (patchBackup c u _ _) as [r2 w3 ev3]; cbn.
  all: destruct r2; cbn.
  all: repeat first [rewrite app_nil_r | rewrite <- app_assoc | progress cbn]; reflexivity.
Qed.

(** The copy submitted by the first patch. *)
Lemma stamped_spec (backup : Backup) (w : World) :
  let s := stamped c backup w in
  let errs := (getLocationAndValidate c (versioned c backup w) (defaultBackupLocation c)).2 in
  Namespace s = Namespace backup ∧ Name s = Name backup ∧
  TTL (Spec s) = TTL (Spec backup) ∧
  StorageLocation (Spec s) =
    (if String.eqb (StorageLocation (Spec backup)) ""
     then defaultBackupLocation c else StorageLocation (Spec backup)) ∧
  Labels s !! StorageLocationLabel c = Some (StorageLocation (Spec s)) ∧
  Version (Status s) = backupVersion ∧
  Expiration (Status s) =
    (if (0 <? TTL (Spec backup))%Z
     then Time_Add (clock_Now c (w_clock w)) (TTL (Spec backup))
     else Expiration (Status backup)) ∧
  ValidationErrors (Status s) = errs ∧
  Phase (Status s) =
    match errs with [] => BackupPhaseInProgress | _ => BackupPhaseFailedValidation end.
Proof.
  cbn.
  pose proof (getLocationAndValidate_frame c (versioned c backup w) (defaultBackupLocation c))
    as (Hns & Hn & Hst & Httl & Hloc & Hlab).
  unfold stamped.
  destruct (getLocationAndValidate c (versioned c backup w) (defaultBackupLocation c))
    as [[itm loc] errs]. cbn in *.
  assert (Hv : Namespace (versioned c backup w) = Namespace backup ∧
               Name (versioned c backup w) = Name backup ∧
               Spec (versioned c backup w) = Spec backup ∧
               Version (Status (versioned c backup w)) = backupVersion ∧
               Expiration (Status (versioned c backup w)) =
                 (if (0 <? TTL (Spec backup))%Z
                  then Time_Add (clock_Now c (w_clock w)) (TTL (Spec backup))
                  else Expiration (Status backup))).
  { unfold versioned; cbn. destruct (0 <? TTL (Spec backup))%Z; cbn; auto. }
  destruct Hv as (Hv1 & Hv2 & Hv3 & Hv4 & Hv5).
  rewrite Hv3 in *.
  destruct errs as [|e errs]; cbn.
  all: rewrite ?Hst; repeat split; congruence.
Qed.

Lemma stamped_phase_changes (backup : Backup) (w : World) :
  phase_is_new (Phase (Status backup)) = true →
  Phase (Status backup) ≠ Phase (Status (stamped c backup w)).
Proof.
  intros Hp.
  pose proof (stamped_spec backup w) as (_ & _ & _ & _ & _ & _ & _ & _ & Hph). cbn in Hph.
  rewrite Hph. unfold phase_is_new in Hp.
  apply orb_prop in Hp as [Hp|Hp]; apply String.eqb_eq in Hp; rewrite Hp.
  all: destruct (getLocationAndValidate c _ _).2; discriminate.
Qed.

(** The first patch, when the store accepts it: the answer carries the
    phase the controller decided. *)
Lemma first_patch_phase (backup u : Backup) (w : World) :
  phase_is_new (Phase (Status backup)) = true →
  res (patchBackup c backup (stamped c backup w) (stamp_world backup w)) = Ok u →
  Phase (Status u) = Phase (Status (stamped c backup w)) ∧
  w_server (world (patchBackup c backup (stamped c backup w) (stamp_world backup w)))
    !! (Namespace backup, Name backup) = Some u.
Proof.
  intros Hp Hr.
  pose proof (patchBackup_spec c backup (stamped c backup w) (stamp_world backup w)) as H.
  cbn in H. rewrite Hr in H. destruct H as (_ & _ & _ & _ & _ & obj & Hobj & -> & ->).
  split.
  - apply applyMergePatch_Phase. by apply stamped_phase_changes.
  - apply lookup_insert_eq.
Qed.

#[local] Arguments stamped : simpl never.
#[local] Arguments stamp_world : simpl never.
#[local] Arguments versioned : simpl never.
#[local] Arguments resolved : simpl never.
#[local] Arguments decided : simpl never.
#[local] Arguments verdict_events : simpl never.
#[local] Arguments track : simpl never.
#[local] Arguments untrack : simpl never.

Lemma stamp_world_frame (backup : Backup) (w : World) :
  w_server (stamp_world backup w) = w_server w ∧
  w_tracker (stamp_world backup w) = w_tracker w ∧
  w_clock (stamp_world backup w) =
    (if (0 <? TTL (Spec backup))%Z then S (w_clock w) else w_clock w).
Proof. unfold stamp_world. destruct (0 <? TTL (Spec backup))%Z; auto. Qed.

(** What a call of [patchBackup] leaves in the trace and in the world. *)
Lemma patch_facts (p : Outcome (result Backup)) (original updated : Backup) (w : World) :
  p = patchBackup c original updated w →
  patch_calls (events p) = [(original, updated, res p)] ∧
  tracker_events (events p) = [] ∧
  w_tracker (world p) = w_tracker w ∧
  w_clock (world p) = w_clock w ∧
  (∀ q, q ∈ patch_requests (events p) → q = CreateMergePatch original updated) ∧
  (∀ e, e ∈ events p → is_observation e = false →
        e = EvPatch (Namespace original) (Name original) (CreateMergePatch original updated)).
Proof.
  intros ->.
  pose proof (patchBackup_spec c original updated w) as (Hc & _ & Ht & _). cbn in Hc, Ht.
  split; [apply patchBackup_patch_calls|].
  split; [apply patchBackup_tracker_events|].
  split; [exact Ht|]. split; [exact Hc|].
  split; [apply patchBackup_patch_requests|].
  intros e [-> | ->]%patchBackup_elem; [reflexivity|discriminate].
Qed.

(** What a run of the pipeline leaves in the trace and in the world. *)
Lemma run_facts (r : Outcome (Backup * option GoError)) (backup : Backup)
    (loc : option BackupStorageLocation) (w : World) :
  r = runBackup c backup loc w →
  patch_calls (events r) = [] ∧
  patch_requests (events r) = [] ∧
  tracker_events (events r) = [] ∧
  w_server (world r) = w_server w ∧
  w_tracker (world r) = w_tracker w ∧
  same_request backup (fst (res r)) ∧
  StartTimestamp (Status (fst (res r))) = clock_Now c (w_clock w) ∧
  pipeline_only (events r) = true.
Proof.
  intros ->.
  destruct (runBackup_frame c backup loc w) as (Hs & Ht & _ & Hsame & Hstart & Hpo).
  destruct (pipeline_only_obs _ Hpo) as (H1 & H2 & H3).
  repeat split; try assumption; apply Hsame.
Qed.

Lemma verdict_observations (schedule : string) (r : Outcome (Backup * option GoError)) :
  patch_calls (verdict_events schedule r) = [] ∧
  patch_requests (verdict_events schedule r) = [] ∧
  tracker_events (verdict_events schedule r) = [].
Proof. unfold verdict_events. by destruct (snd (res r)). Qed.

Lemma final_log_observations (r : result Backup) :
  let l := match r with
           | Err _ => [EvLog ControllerLog ErrorLevel "error updating backup's final status"]
           | Ok _ => []
           end in
  patch_calls l = [] ∧ patch_requests l = [] ∧ tracker_events l = [] ∧ effects l = [].
Proof. by destruct r. Qed.

(** Find an event in a trace: at the head, or further to the right. *)
Ltac find_event :=
  unfold log_running, log_getting, log_cloning;
  repeat first
    [ apply list_elem_of_here
    | apply list_elem_of_further
    | apply elem_of_app; right ].

(** The paths of a run, with the sub-runs named. *)
Ltac reconcile_paths key w :=
  destruct (processBackup_Reconcile key w)
    as [kerr Hk | kns kname kerr Hk Hg | kns kname cached Hk Hg Hp
       | kns kname cached p1 kerr Hk Hg Hp Hp1 Hr1
       | kns kname cached p1 u Hk Hg Hp Hp1 Hr1 Hfv
       | kns kname cached p1 u r p2 Hk Hg Hp Hp1 Hr1 Hfv Hr Hp2];
  cbn [events res world].

(** Distribute the observations over a trace and its sub-runs. *)
Ltac observe_trace :=
  rewrite ?patch_calls_app, ?tracker_events_app, ?patch_requests_app;
  repeat match goal with
  | H : _ = patchBackup _ _ _ _ |- _ =>
      progress (rewrite ?(proj1 (patch_facts _ _ _ _ H)),
                        ?(proj1 (proj2 (patch_facts _ _ _ _ H))))
  | H : _ = runBackup _ _ _ _ |- _ =>
      progress (rewrite ?(proj1 (run_facts _ _ _ _ H)),
                        ?(proj1 (proj2 (run_facts _ _ _ _ H))),
                        ?(proj1 (proj2 (proj2 (run_facts _ _ _ _ H)))))
  end;
  rewrite ?(proj1 (verdict_observations _ _)),
    ?(proj1 (proj2 (verdict_observations _ _))),
    ?(proj2 (proj2 (verdict_observations _ _))),
    ?(proj1 (final_log_observations _)),
    ?(proj1 (proj2 (final_log_observations _))),
    ?(proj1 (proj2 (proj2 (final_log_observations _)))).

(** The terminal phase: Failed after an error, Completed otherwise. *)
Lemma decided_phase (r : Outcome (Backup * option GoError)) (backup : Backup)
    (loc : option BackupStorageLocation) (w : World) :
  r = runBackup c backup loc w →
  Phase (Status (decided r)) =
    match snd (res r) with
    | Some _ => BackupPhaseFailed
    | None => BackupPhaseCompleted
    end ∧
  same_request backup (decided r) ∧
  StartTimestamp (Status (decided r)) = clock_Now c (w_clock w).
Proof.
  intros Hr.
  destruct (run_facts _ _ _ _ Hr) as (_ & _ & _ & _ & _ & Hsame & Hstart & _).
  unfold decided.
  destruct (snd (res r)) as [e|] eqn:Herr; cbn.
  { split; [reflexivity|]. split; [|exact Hstart]. exact Hsame. }
  split; [|split; [exact Hsame|exact Hstart]].
  destruct (acquired c loc w) eqn:Hacq.
  - apply acquired_true in Hacq as (lf & bf & H1 & H2 & H3 & H4).
    destruct (runBackup_full c backup loc w lf bf H1 H2 H3 H4) as [Hres _].
    rewrite <- Hr in Hres. rewrite Hres in *. cbn in *.
    unfold finished, collected in *. cbn.
    destruct (backupper_Backup c (started c backup w) bf); [discriminate|reflexivity].
  - destruct (runBackup_early c backup loc w Hacq) as (_ & Hne & _).
    rewrite <- Hr in Hne. contradiction.
Qed.

(** The path on which the pipeline runs. *)
Lemma executed_facts (backup u : Backup) (w : World)
    (p1 p2 : Outcome (result Backup)) (r : Outcome (Backup * option GoError)) :
  phase_is_new (Phase (Status backup)) = true →
  p1 = patchBackup c backup (stamped c backup w) (stamp_world backup w) →
  res p1 = Ok u →
  Phase (Status u) ≠ BackupPhaseFailedValidation →
  r = runBackup c u (resolved c backup w) (track (Namespace u) (Name u) (world p1)) →
  p2 = patchBackup c u (decided r) (world r) →
  Phase (Status u) = BackupPhaseInProgress ∧
  Phase (Status (stamped c backup w)) = BackupPhaseInProgress ∧
  w_tracker (untrack (Namespace u) (Name u) (world p2))
    = w_tracker w ∖ {[ (Namespace u, Name u) ]} ∧
  Phase (Status (decided r)) ≠ Phase (Status u) ∧
  (∀ u2, res p2 = Ok u2 →
     Phase (Status u2) = Phase (Status (decided r)) ∧
     w_server (untrack (Namespace u) (Name u) (world p2)) !! (Namespace u, Name u) = Some u2).
Proof.
  intros Hp Hp1 Hr1 Hfv Hr Hp2.
  assert (Hph : Phase (Status u) = Phase (Status (stamped c backup w))).
  { subst p1. by destruct (first_patch_phase backup u w Hp Hr1) as (? & _). }
  pose proof (stamped_spec backup w) as (_ & _ & _ & _ & _ & _ & _ & _ & Hsp). cbn in Hsp.
  assert (Hin : Phase (Status (stamped c backup w)) = BackupPhaseInProgress).
  { rewrite Hph, Hsp in *. by destruct (getLocationAndValidate c _ _).2. }
  destruct (decided_phase _ _ _ _ Hr) as (Hdec & _).
  assert (Hne : Phase (Status (decided r)) ≠ Phase (Status u)).
  { rewrite Hdec, Hph, Hin. by destruct (snd (res r)). }
  split; [congruence|]. split; [exact Hin|]. split; [|split; [exact Hne|]].
  - destruct (patch_facts _ _ _ _ Hp1) as (_ & _ & Ht1 & _).
    destruct (patch_facts _ _ _ _ Hp2) as (_ & _ & Ht3 & _).
    destruct (run_facts _ _ _ _ Hr) as (_ & _ & _ & _ & Ht2 & _).
    destruct (stamp_world_frame backup w) as (_ & Ht0 & _).
    unfold untrack; cbn. rewrite Ht3, Ht2. unfold track; cbn. rewrite Ht1, Ht0.
    apply set_eq. intros x. rewrite !elem_of_difference, elem_of_union. tauto.
  - intros u2 Hr2.
    pose proof (patchBackup_spec c u (decided r) (world r)) as H.
    cbn in H. rewrite <- Hp2, Hr2 in H.
    destruct H as (_ & _ & _ & _ & _ & obj & _ & -> & Hsrv).
    split.
    + apply applyMergePatch_Phase. congruence.
    + unfold untrack; cbn. rewrite Hsrv. apply lookup_insert_eq.
Qed.

Lemma elem_of_tracker_add (evs : list Event) (ns name : string) :
  EvTrackerAdd ns name ∈ evs → EvTrackerAdd ns name ∈ tracker_events evs.
Proof.
  intros Hin. unfold tracker_events.
  apply list_elem_of_In, List.filter_In. split; [by apply list_elem_of_In|done].
Qed.

(** Split a membership in a trace into its places. *)
Ltac split_trace H :=
  unfold log_running, log_getting, log_cloning in H;
  repeat first
    [ apply elem_of_cons in H as [H | H]
    | apply elem_of_app in H as [H | H]
    | apply elem_of_nil in H as [] ].

(** An effect of the reconciler that is none of [patchBackup]'s. *)
Ltac not_in_patch H :=
  match type of H with
  | _ ∈ events ?p =>
      match goal with
      | Hp : p = patchBackup _ _ _ _ |- _ =>
          apply (proj2 (proj2 (proj2 (proj2 (proj2 (patch_facts _ _ _ _ Hp)))))) in H;
          [discriminate | reflexivity]
      end
  end.

(** An event of the pipeline is in the trace only on the path on which the
    pipeline ran, and it is one of the events of that run. *)
Lemma pipeline_event_executed (key : string) (w : World) (e : Event) :
  e ∈ events (processBackup c key w) →
  is_pipeline_event e = true →
  ∃ cached p1 u r p2,
    phase_is_new (Phase (Status cached)) = true ∧
    p1 = patchBackup c cached (stamped c cached w) (stamp_world cached w) ∧
    res p1 = Ok u ∧
    Phase (Status u) ≠ BackupPhaseFailedValidation ∧
    r = runBackup c u (resolved c cached w) (track (Namespace u) (Name u) (world p1)) ∧
    p2 = patchBackup c u (decided r) (world r) ∧
    e ∈ events r ∧
    world (processBackup c key w) = untrack (Namespace u) (Name u) (world p2) ∧
    events (processBackup c key w) =
      [log_running; log_getting; log_cloning] ++ events p1 ++
      [EvTrackerAdd (Namespace u) (Name u);
       EvLog ControllerLog DebugLevel "Running backup";
       EvRegisterBackupAttempt (GetLabel "ark-schedule" u)] ++
      events r ++
      verdict_events (GetLabel "ark-schedule" u) r ++
      [EvLog ControllerLog DebugLevel "Updating backup's final status"] ++
      events p2 ++
      match res p2 with
      | Err _ => [EvLog ControllerLog ErrorLevel "error updating backup's final status"]
      | Ok _ => []
      end ++
      [EvTrackerDelete (Namespace u) (Name u)].
Proof.
  reconcile_paths key w; intros Hin He.
  1-5: split_trace Hin; subst; try discriminate;
       apply patchBackup_elem in Hin as [-> | ->]; discriminate.
  exists cached, p1, u, r, p2. repeat (split; [assumption || reflexivity|]).
  split; [|split; reflexivity].
  split_trace Hin; try assumption.
  all: first
    [ by (subst; discriminate)
    | (rewrite Hp1 in Hin || rewrite Hp2 in Hin);
      apply patchBackup_elem in Hin as [-> | ->]; discriminate
    | unfold verdict_events in Hin;
      destruct (snd (res r)); split_trace Hin; subst; discriminate
    | destruct (res p2); split_trace Hin; subst; discriminate ].
Qed.

(** The Backupper is called only by a pipeline that obtained its files,
    actions and store; the call fixes the whole run. *)
Lemma backupper_call_located (backup : Backup) (loc : option BackupStorageLocation)
    (w : World) (b : Backup) (f : File) :
  EvBackupperBackup b f ∈ events (runBackup c backup loc w) →
  ∃ logFile,
    b = started c backup w ∧
    res (runBackup c backup loc w) =
      (finished c backup w f, NewAggregate (collected c backup w logFile f)) ∧
    effects (events (runBackup c backup loc w)) = full_run c backup loc w logFile f.
Proof.
  intros Hin.
  destruct (acquired c loc w) eqn:Hacq.
  - apply acquired_true in Hacq as (lf & bf & H1 & H2 & H3 & H4).
    destruct (runBackup_full c backup loc w lf bf H1 H2 H3 H4) as [Hres Heff].
    assert (Hin' : EvBackupperBackup b f ∈ effects (events (runBackup c backup loc w))).
    { apply elem_of_effects. auto. }
    rewrite Heff in Hin'. unfold full_run in Hin'.
    split_trace Hin'; try discriminate.
    injection Hin' as -> ->. exists lf. auto.
  - destruct (runBackup_early c backup loc w Hacq) as (_ & _ & Hnone).
    apply (existsb_false_elem _ _ _ Hnone) in Hin. discriminate.
Qed.

#[local] Arguments started : simpl never.
#[local] Arguments finished : simpl never.
#[local] Arguments collected : simpl never.
#[local] Arguments full_run : simpl never.

(** On the path on which the pipeline ran, an event that is neither a log
    line nor an event of the reconciler itself is an event of the pipeline
    run. *)
Ltac executed_cases H Hp1 Hp2 r p2 :=
  split_trace H;
  try first
    [ by (subst; discriminate)
    | (rewrite Hp1 in H || rewrite Hp2 in H);
      apply patchBackup_elem in H as [H | H]; discriminate
    | unfold verdict_events in H;
      destruct (snd (res r)); split_trace H; subst; discriminate
    | destruct (res p2); split_trace H; subst; discriminate ].

Lemma patch_no_collected_failure (p : Outcome (result Backup)) (original updated : Backup)
    (w : World) :
  p = patchBackup c original updated w →
  existsb (collected_failure c) (events p) = false.
Proof.
  intros ->. by destruct (patchBackup_events c original updated w) as [-> | ->].
Qed.

(** ** The claims *)

(** C1.  A request whose phase is neither empty nor New: the reconcile
    returns nil, leaves the world as it was (store, tracker, counters) and
    produces two debug log lines and no effect. *)
Theorem processBackup_not_new_is_noop
    (key ns name : string) (backup : Backup) (w : World) :
  SplitMetaNamespaceKey c key = Ok (ns, name) →
  lister_Get c ns name = Ok backup →
  Phase (Status backup) ≠ "" →
  Phase (Status backup) ≠ BackupPhaseNew →
  processBackup c key w = mkOutcome None w [log_running; log_getting] ∧
  effects (events (processBackup c key w)) = [].
Proof.
  intros Hk Hg He Hn.
  assert (Hp : phase_is_new (Phase (Status backup)) = false).
  { unfold phase_is_new. apply orb_false_intro; apply String.eqb_neq; assumption. }
  assert (processBackup c key w = mkOutcome None w [log_running; log_getting]) as ->.
  { run_reconciler. rewrite Hk; cbn. rewrite Hg; cbn. rewrite Hp; cbn. reflexivity. }
  split; reflexivity.
Qed.

(** C2, as amended.  Once the two temporary files, the plugin actions and
    the object-store client are obtained, a run of the pipeline goes
    through all its steps, in the order of [full_run]: archive
    construction, encoding, size accounting, the flush of the log stream,
    then the upload and the metrics, and last the deferred releases.  It
    collects the errors of the Backupper, the encoding, the size and the
    upload into the aggregate it returns, which is nil exactly when none of
    these steps failed; a failed flush is not collected.  When one of the
    files, the actions or the store is not obtained, the pipeline returns
    an error at once, hands the request back only stamped with its start,
    and runs none of archive construction, size accounting, upload and
    metrics.  Either way the error does not stop the reconcile: once the
    pipeline has been started, [processBackup] goes on to the terminal
    status patch and returns nil. *)
Theorem pipeline_completes_once_acquired
    (backup : Backup) (loc : option BackupStorageLocation) (w : World)
    (key : string) (w' : World) :
  (acquired c loc w = true →
   ∃ logFile archive,
     ioutil_TempFile c (w_tempfiles w) = Ok logFile ∧
     ioutil_TempFile c (S (w_tempfiles w)) = Ok archive ∧
     effects (events (runBackup c backup loc w))
       = full_run c backup loc w logFile archive ∧
     res (runBackup c backup loc w)
       = (finished c backup w archive,
          NewAggregate (collected c backup w logFile archive)) ∧
     (snd (res (runBackup c backup loc w)) = None ↔
      existsb (collected_failure c) (events (runBackup c backup loc w)) = false) ∧
     all_steps_run (events (runBackup c backup loc w)) = true) ∧
  (acquired c loc w = false →
   fst (res (runBackup c backup loc w)) = started c backup w ∧
   snd (res (runBackup c backup loc w)) ≠ None ∧
   existsb (λ e, is_archive_step e || is_size_step e || is_upload_step e || is_metrics_step e)
     (events (runBackup c backup loc w)) = false) ∧
  (∀ schedule,
     EvRegisterBackupAttempt schedule ∈ events (processBackup c key w') →
     res (processBackup c key w') = None ∧
     length (patch_calls (events (processBackup c key w'))) = 2%nat).
Proof.
  split; [|split].
  - intros (lf & bf & H1 & H2 & H3 & H4)%acquired_true.
    destruct (runBackup_full c backup loc w lf bf H1 H2 H3 H4) as [Hres Heff].
    exists lf, bf. do 4 (split; [assumption|]). split.
    + rewrite <- (existsb_effects (collected_failure c)) by (by intros []).
      rewrite Hres, Heff. unfold full_run, collected. cbn.
      destruct (backupper_Backup c (started c backup w) bf); cbn;
        [by split|].
      destruct (encode_EncodeTo_err c (finished c backup w bf)); cbn;
        [by split|].
      destruct (file_Stat c bf); cbn; [|by split].
      destruct (PutBackup_err c _ _ _ _); cbn; by split.
    + unfold all_steps_run.
      rewrite <- (existsb_effects is_archive_step), <- (existsb_effects is_size_step),
        <- (existsb_effects is_flush_step), <- (existsb_effects is_upload_step),
        <- (existsb_effects is_metrics_step), Heff; try by intros [].
      reflexivity.
  - intros Hacq. exact (runBackup_early c backup loc w Hacq).
  - intros schedule. reconcile_paths key w'; intros Hin.
    1-5: split_trace Hin; try discriminate; not_in_patch Hin.
    split; [reflexivity|]. observe_trace. reflexivity.
Qed.

(** C3, as amended.  A reconcile of a request with a TTL, both of whose
    status patches the store accepted, started with the cache in step with
    the store.  The expiration is the clock reading taken when the copy is
    stamped, before the first patch, plus the TTL; the first patch stores
    it; the pipeline leaves it as it is, the terminal patch document does
    not carry it, and the stored request ends with it.  The start timestamp
    is the next clock reading, taken by the pipeline: expiration equals
    start timestamp plus TTL exactly when the two readings coincide. *)
Theorem expiration_is_set_once
    (key : string) (w : World) (o1 u1 r1 o2 u2 r2 : Backup) :
  patch_calls (events (processBackup c key w)) = [(o1, u1, Ok r1); (o2, u2, Ok r2)] →
  (0 < TTL (Spec o1))%Z →
  w_server w !! (Namespace o1, Name o1) = Some o1 →
  Expiration (Status u1) = Time_Add (clock_Now c (w_clock w)) (TTL (Spec o1)) ∧
  Expiration (Status r1) = Expiration (Status u1) ∧
  Expiration (Status u2) = Expiration (Status u1) ∧
  Expiration (Status r2) = Expiration (Status u1) ∧
  StartTimestamp (Status r2) = clock_Now c (S (w_clock w)) ∧
  w_server (world (processBackup c key w)) !! (Namespace o1, Name o1) = Some r2 ∧
  (∃ q1 q2, patch_requests (events (processBackup c key w)) = [q1; q2] ∧
            p_Expiration q2 = None) ∧
  (Expiration (Status r2) = Time_Add (StartTimestamp (Status r2)) (TTL (Spec o1)) ↔
   clock_Now c (w_clock w) = clock_Now c (S (w_clock w))).
Proof.
  reconcile_paths key w; try discriminate.
  1-2: observe_trace; discriminate.
  observe_trace. cbn [patch_calls flat_map app log_running log_getting log_cloning].
  intros [= <- <- Hres1 <- <- Hres2] Httl Hcoh.
  rewrite Hr1 in Hres1. injection Hres1 as <-.
  apply Z.ltb_lt in Httl.
  (* the first patch *)
  pose proof (stamped_spec cached w) as (_ & _ & _ & _ & _ & _ & Hexp & _). cbn in Hexp.
  rewrite Httl in Hexp.
  destruct (stamp_world_frame cached w) as (Hs0 & _ & Hc0). rewrite Httl in Hc0.
  pose proof (patchBackup_spec c cached (stamped c cached w) (stamp_world cached w)) as H1.
  cbn in H1. rewrite <- Hp1, Hr1 in H1.
  destruct H1 as (Hc1 & _ & _ & Hev1 & _ & obj & Hobj & Hu & Hsrv1).
  rewrite Hs0, Hcoh in Hobj. injection Hobj as <-.
  assert (Hst1 : Status u = Status (stamped c cached w)).
  { rewrite Hu. apply applyMergePatch_Status. }
  assert (Hid : Namespace u = Namespace cached ∧ Name u = Name cached).
  { rewrite Hu. split; reflexivity. }
  destruct Hid as [Hns Hnm].
  (* the pipeline *)
  destruct (run_facts _ _ _ _ Hr) as (_ & Hreq & _ & Hs2 & _ & _ & _ & _).
  destruct (decided_phase _ _ _ _ Hr) as (_ & Hsame & Hstart).
  destruct Hsame as (_ & _ & _ & _ & _ & Hexp2 & _).
  (* the terminal patch *)
  pose proof (patchBackup_spec c u (decided r) (world r)) as H2.
  cbn in H2. rewrite <- Hp2, Hres2 in H2.
  destruct H2 as (_ & _ & _ & Hev2 & _ & obj2 & Hobj2 & Hu2 & Hsrv2).
  rewrite Hs2 in Hobj2. unfold track in Hobj2; cbn in Hobj2.
  rewrite Hsrv1, Hns, Hnm, lookup_insert_eq in Hobj2. injection Hobj2 as <-.
  assert (Hst2 : Status r2 = Status (decided r)).
  { rewrite Hu2. apply applyMergePatch_Status. }
  assert (Hstart2 : StartTimestamp (Status r2) = clock_Now c (S (w_clock w))).
  { rewrite Hst2, Hstart. unfold track; cbn. by rewrite Hc1, Hc0. }
  assert (Hexp1 : Expiration (Status u) = Expiration (Status (stamped c cached w)))
    by (by rewrite Hst1).
  assert (Hexp3 : Expiration (Status r2) = Expiration (Status (stamped c cached w)))
    by (by rewrite Hst2, Hexp2).
  split; [exact Hexp|]. split; [exact Hexp1|]. split; [congruence|].
  split; [exact Hexp3|]. split; [exact Hstart2|]. split; [|split].
  - unfold untrack; cbn. rewrite Hsrv2, Hns, Hnm. apply lookup_insert_eq.
  - rewrite ?patch_requests_app, ?Hreq, Hev1, Hev2.
    rewrite ?(proj1 (proj2 (verdict_observations _ _))).
    do 2 eexists. split; [reflexivity|].
    cbn. unfold diff_field. case_decide; [reflexivity|congruence].
  - rewrite Hexp3, Hstart2, Hexp. unfold Time_Add. lia.
Qed.

(** C4.  A request with contradictory resource lists or contradictory
    namespace lists: validation returns at least one error; the copy
    submitted by the first (and only) status patch has phase
    FailedValidation, and so has every patch document sent to the store;
    the tracker and the pipeline are never reached; when the store accepts
    the patch the stored request has phase FailedValidation and the
    reconcile returns nil. *)
Theorem contradictory_lists_fail_validation
    (key ns name : string) (backup : Backup) (w : World) :
  SplitMetaNamespaceKey c key = Ok (ns, name) →
  lister_Get c ns name = Ok backup →
  phase_is_new (Phase (Status backup)) = true →
  contradictory (IncludedResources (Spec backup)) (ExcludedResources (Spec backup)) ∨
  contradictory (IncludedNamespaces (Spec backup)) (ExcludedNamespaces (Spec backup)) →
  (getLocationAndValidate c (versioned c backup w) (defaultBackupLocation c)).2 ≠ [] ∧
  Phase (Status (stamped c backup w)) = BackupPhaseFailedValidation ∧
  ValidationErrors (Status (stamped c backup w)) ≠ [] ∧
  (∃ r, patch_calls (events (processBackup c key w)) = [(backup, stamped c backup w, r)] ∧
        match r with
        | Ok u =>
            res (processBackup c key w) = None ∧
            Phase (Status u) = BackupPhaseFailedValidation ∧
            w_server (world (processBackup c key w)) !! (Namespace backup, Name backup)
              = Some u
        | Err _ =>
            res (processBackup c key w) ≠ None ∧
            w_server (world (processBackup c key w)) = w_server w
        end) ∧
  (∀ p, p ∈ patch_requests (events (processBackup c key w)) →
        p_Phase p = Some BackupPhaseFailedValidation) ∧
  tracker_events (events (processBackup c key w)) = [] ∧
  (∀ e, e ∈ events (processBackup c key w) → is_pipeline_event e = false).
Proof.
  intros Hk0 Hg0 Hp0 Hcontra.
  assert (Herrs : (getLocationAndValidate c (versioned c backup w)
                     (defaultBackupLocation c)).2 ≠ []).
  { apply getLocationAndValidate_contradictory.
    assert (Spec (versioned c backup w) = Spec backup) as ->; [|exact Hcontra].
    unfold versioned. cbn. by destruct (0 <? TTL (Spec backup))%Z. }
  pose proof (stamped_spec backup w) as (_ & _ & _ & _ & _ & _ & _ & Hve & Hsp).
  cbn in Hve, Hsp.
  assert (Hfv0 : Phase (Status (stamped c backup w)) = BackupPhaseFailedValidation).
  { rewrite Hsp. by destruct (getLocationAndValidate c _ _).2. }
  split; [exact Herrs|]. split; [exact Hfv0|]. split; [by rewrite Hve|].
  assert (Hpatch : p_Phase (CreateMergePatch backup (stamped c backup w))
                   = Some BackupPhaseFailedValidation).
  { cbn. unfold diff_field. rewrite Hfv0.
    case_decide as Heq; [|reflexivity].
    unfold phase_is_new in Hp0. rewrite Heq in Hp0. discriminate. }
  reconcile_paths key w; try congruence.
  all: rewrite Hk0 in Hk; injection Hk as <- <-.
  all: rewrite Hg0 in Hg; injection Hg as <-.
  all: clear Hp0.
  3: { destruct (executed_facts _ _ _ _ _ _ Hp Hp1 Hr1 Hfv Hr Hp2) as (_ & Hst & _).
       rewrite Hfv0 in Hst. discriminate. }
  all: destruct (patch_facts _ _ _ _ Hp1) as (_ & _ & _ & _ & Hreq & _).
  all: destruct (stamp_world_frame backup w) as (Hs0 & _ & _).
  all: pose proof (patchBackup_spec c backup (stamped c backup w) (stamp_world backup w))
         as Hspec; cbn in Hspec; rewrite <- Hp1, Hr1 in Hspec.
  all: assert (Hpipe : ∀ e', e' ∈ [log_running; log_getting; log_cloning] ++ events p1 →
                             is_pipeline_event e' = false)
         by (intros e' Hin; split_trace Hin; subst; try reflexivity;
             apply patchBackup_elem in Hin as [-> | ->]; reflexivity).
  all: assert (Hphase : ∀ p, p ∈ patch_requests
                                   ([log_running; log_getting; log_cloning] ++ events p1) →
                             p_Phase p = Some BackupPhaseFailedValidation)
         by (intros p Hin; rewrite patch_requests_app in Hin; cbn in Hin;
             apply Hreq in Hin as ->; exact Hpatch).
  all: split; [exists (res p1); split; [by observe_trace|rewrite Hr1]|].
  all: try (split; [exact Hphase|split; [by observe_trace|exact Hpipe]]).
  - (* the store refused the patch *)
    split; [discriminate|]. destruct Hspec as (_ & _ & _ & Hs & _). congruence.
  - (* the store accepted the patch *)
    split; [reflexivity|]. split; [exact Hfv|].
    subst p1. by destruct (first_patch_phase backup u w Hp Hr1) as (_ & ?).
Qed.

(** C5.  A reconcile in which the Backupper returns an error.  The effects
    of the reconcile contain the complete pipeline run [full_run]: after the
    Backupper call come the encoding of the request (with phase Failed and
    its completion timestamp), the size of the archive, the flush of the
    log, [PutBackup] with the log (and with manifest and archive when the
    encoding succeeded), the two metrics and the cleanup.  The request
    submitted by the terminal status patch has phase Failed, and so has the
    stored request when the store accepts the patch; the failure metric is
    emitted, the success metric is not. *)
Theorem backupper_failure_does_not_stop_pipeline
    (key : string) (w : World) (b : Backup) (f : File) (err : GoError) :
  EvBackupperBackup b f ∈ events (processBackup c key w) →
  backupper_Backup c b f = Some err →
  (∃ pre post request loc w1 logFile,
     effects (events (processBackup c key w))
       = pre ++ full_run c request loc w1 logFile f ++ post ∧
     b = started c request w1 ∧
     Phase (Status (finished c request w1 f)) = BackupPhaseFailed ∧
     CompletionTimestamp (Status (finished c request w1 f)) = clock_Now c (S (w_clock w1))) ∧
  (∃ original updated answer,
     last (patch_calls (events (processBackup c key w))) = Some (original, updated, answer) ∧
     Phase (Status updated) = BackupPhaseFailed ∧
     ∀ stored, answer = Ok stored →
       Phase (Status stored) = BackupPhaseFailed ∧
       w_server (world (processBackup c key w)) !! (Namespace original, Name original)
         = Some stored) ∧
  (∃ schedule, EvRegisterBackupFailed schedule ∈ events (processBackup c key w)) ∧
  (∀ schedule, EvRegisterBackupSuccess schedule ∉ events (processBackup c key w)).
Proof.
  intros Hin Hb.
  destruct (pipeline_event_executed key w _ Hin eq_refl)
    as (cached & p1 & u & r & p2 & Hp & Hp1 & Hr1 & Hfv & Hr & Hp2 & Hinr & Hw & Hev).
  rewrite Hr in Hinr.
  destruct (backupper_call_located _ _ _ _ _ Hinr) as (lf & Hb' & Hres & Heff).
  rewrite <- Hr in Hres, Heff. rewrite Hb' in Hb.
  assert (Hfin : Phase (Status (finished c u
                   (track (Namespace u) (Name u) (world p1)) f)) = BackupPhaseFailed).
  { unfold finished. by rewrite Hb. }
  assert (Herr : ∃ e, snd (res r) = Some e).
  { rewrite Hres. unfold collected. rewrite Hb. cbn. eauto. }
  destruct Herr as [e Herr].
  destruct (decided_phase _ _ _ _ Hr) as (Hdec & _). rewrite Herr in Hdec.
  destruct (executed_facts cached u w p1 p2 r Hp Hp1 Hr1 Hfv Hr Hp2)
    as (_ & _ & _ & _ & Hstored).
  rewrite Hev, Hw. split; [|split; [|split]].
  - exists (effects [log_running; log_getting; log_cloning] ++ effects (events p1) ++
            effects [EvTrackerAdd (Namespace u) (Name u);
                     EvLog ControllerLog DebugLevel "Running backup";
                     EvRegisterBackupAttempt (GetLabel "ark-schedule" u)]).
    eexists. exists u, (resolved c cached w), (track (Namespace u) (Name u) (world p1)), lf.
    split; [|split; [exact Hb'|split; [exact Hfin|reflexivity]]].
    rewrite !effects_app, Heff, <- !app_assoc. reflexivity.
  - exists u, (decided r), (res p2). observe_trace. cbn.
    split; [reflexivity|]. split; [exact Hdec|].
    intros stored Hst. destruct (Hstored stored Hst) as [Hph Hlk].
    split; [congruence|exact Hlk].
  - exists (GetLabel "ark-schedule" u).
    rewrite !elem_of_app. do 4 right. left.
    unfold verdict_events. rewrite Herr. find_event.
  - intros schedule Hs.
    executed_cases Hs Hp1 Hp2 r p2.
    destruct (run_facts _ _ _ _ Hr) as (_ & _ & _ & _ & _ & _ & _ & Hpo).
    apply (pipeline_only_elem _ _ Hpo) in Hs. discriminate.
Qed.

(** C6, as amended.  A key that does not decode, or a request that is not
    in the cache: the reconcile returns the wrapped error, not nil, and
    leaves the world as it was, with no effect beyond debug log lines. *)
Theorem processBackup_lookup_failure_is_returned
    (key : string) (err : GoError) (w : World) :
  lookup_failure c key = Some err →
  res (processBackup c key w) = Some err ∧
  world (processBackup c key w) = w ∧
  effects (events (processBackup c key w)) = [].
Proof.
  unfold lookup_failure. run_reconciler.
  destruct (SplitMetaNamespaceKey c key) as [[ns name]|e]; cbn.
  - destruct (lister_Get c ns name) as [b|e]; cbn; [discriminate|].
    intros [= <-]. auto.
  - intros [= <-]. auto.
Qed.

(** C7.  A reconcile whose second, terminal status patch fails (in the
    encoding of the snapshots or at the store): [processBackup] returns nil
    all the same, after the pipeline has run; the failure is only logged. *)
Theorem terminal_patch_failure_is_not_surfaced
    (key : string) (w : World) (first : Backup * Backup * result Backup)
    (original updated : Backup) (err : GoError) :
  patch_calls (events (processBackup c key w)) = [first; (original, updated, Err err)] →
  res (processBackup c key w) = None ∧
  EvLog ControllerLog ErrorLevel "error updating backup's final status"
    ∈ events (processBackup c key w) ∧
  ∃ schedule, EvRegisterBackupAttempt schedule ∈ events (processBackup c key w).
Proof.
  reconcile_paths key w.
  1-3: discriminate.
  1-2: observe_trace; discriminate.
  intros Hcalls. split; [reflexivity|].
  assert (∃ e, res p2 = Err e) as [e ->].
  { revert Hcalls. observe_trace. cbn. intros [= _ _ _ ->]. eauto. }
  split; [|eexists]; find_event.
Qed.

(** C8.  Validation replaces an empty storage location by the default and
    writes the effective location into the labels of the copy, whatever
    errors it returns; when the lookup of the location fails, an error is
    returned and the label is written all the same.  The copy the
    reconciler submits in its first status patch carries the label. *)
Theorem storage_location_is_defaulted_and_labelled
    (itm : Backup) (dflt : string) (key : string) (w : World) :
  (let '(itm', backupLocation, validationErrors) := getLocationAndValidate c itm dflt in
   StorageLocation (Spec itm') =
     (if String.eqb (StorageLocation (Spec itm)) "" then dflt
      else StorageLocation (Spec itm)) ∧
   Labels itm' !! StorageLocationLabel c = Some (StorageLocation (Spec itm')) ∧
   (∀ err, backupLocationLister_Get c (Namespace itm) (StorageLocation (Spec itm')) = Err err →
      backupLocation = None ∧ validationErrors ≠ [] ∧
      Labels itm' !! StorageLocationLabel c = Some (StorageLocation (Spec itm')))) ∧
  (∀ original updated r,
     head (patch_calls (events (processBackup c key w))) = Some (original, updated, r) →
     StorageLocation (Spec updated) =
       (if String.eqb (StorageLocation (Spec original)) "" then defaultBackupLocation c
        else StorageLocation (Spec original)) ∧
     Labels updated !! StorageLocationLabel c = Some (StorageLocation (Spec updated))).
Proof.
  split.
  - pose proof (getLocationAndValidate_frame c itm dflt) as (_ & _ & _ & _ & Hloc & Hlab).
    pose proof (getLocationAndValidate_lookup c itm dflt) as Hfail.
    destruct (getLocationAndValidate c itm dflt) as [[itm' loc] errs]. cbn in *.
    split; [exact Hloc|]. split; [exact Hlab|].
    intros err Herr. rewrite Hloc in Herr. destruct (Hfail err Herr). auto.
  - reconcile_paths key w; intros original updated answer; try discriminate.
    all: observe_trace; cbn; intros [= <- <- _].
    all: by pose proof (stamped_spec cached w) as (_ & _ & _ & ? & ? & _).
Qed.

(** C9.  The BackupTracker and the phases.  An entry is registered only on
    the path where the first status patch succeeded with phase InProgress,
    for the namespace and name of the patched request; it is then the
    only registration of the run, it is deleted by the last event of the
    run, on every outcome of the pipeline and of the terminal patch, and the
    tracker ends without the entry.  The registration comes right after the
    first status patch and before everything of the execution: the only
    effect that precedes it is the request of the first patch, and the
    attempt metric, every event of the pipeline and the terminal patch lie
    between the registration and the deletion.  A request whose copy is set
    to FailedValidation is never registered.  Conversely a request patched
    to InProgress is registered. *)
Theorem tracker_holds_only_running_backups (key : string) (w : World) :
  (∀ ns name,
     EvTrackerAdd ns name ∈ events (processBackup c key w) →
     ∃ original updated u,
       head (patch_calls (events (processBackup c key w))) = Some (original, updated, Ok u) ∧
       Phase (Status u) = BackupPhaseInProgress ∧
       ns = Namespace u ∧ name = Name u ∧
       tracker_events (events (processBackup c key w))
         = [EvTrackerAdd ns name; EvTrackerDelete ns name] ∧
       last (events (processBackup c key w)) = Some (EvTrackerDelete ns name) ∧
       w_tracker (world (processBackup c key w)) = w_tracker w ∖ {[ (ns, name) ]} ∧
       ∃ before during,
         events (processBackup c key w)
           = before ++ [EvTrackerAdd ns name] ++ during ++ [EvTrackerDelete ns name] ∧
         patch_calls before = [(original, updated, Ok u)] ∧
         effects before
           = [EvPatch (Namespace original) (Name original)
                (CreateMergePatch original updated)] ∧
         (∀ e, e ∈ events (processBackup c key w) →
               is_pipeline_event e = true → e ∈ during) ∧
         (∀ schedule, EvRegisterBackupAttempt schedule ∈ events (processBackup c key w) →
                      EvRegisterBackupAttempt schedule ∈ during) ∧
         head during = Some (EvLog ControllerLog DebugLevel "Running backup") ∧
         ∃ terminal answer, patch_calls during = [(u, terminal, answer)]) ∧
  (∀ original updated r,
     head (patch_calls (events (processBackup c key w))) = Some (original, updated, r) →
     Phase (Status updated) = BackupPhaseFailedValidation →
     tracker_events (events (processBackup c key w)) = [] ∧
     w_tracker (world (processBackup c key w)) = w_tracker w) ∧
  (∀ original updated u,
     head (patch_calls (events (processBackup c key w))) = Some (original, updated, Ok u) →
     Phase (Status u) = BackupPhaseInProgress →
     EvTrackerAdd (Namespace u) (Name u) ∈ events (processBackup c key w)).
Proof.
  reconcile_paths key w.
  1-3: (split; [|split]);
    [intros ? ? []%elem_of_tracker_add%elem_of_nil | discriminate | discriminate].
  1-2: destruct (patch_facts _ _ _ _ Hp1) as (_ & _ & Ht & _);
       destruct (stamp_world_frame cached w) as (_ & Ht' & _);
       (split; [|split]);
       [ intros ? ? Hin%elem_of_tracker_add; revert Hin; observe_trace;
         by intros []%elem_of_nil
       | intros ? ? ? _ _; observe_trace; split; [reflexivity|congruence]
       | observe_trace; rewrite Hr1; cbn ].
  - discriminate.
  - intros ? ? ? [= _ _ <-] Hph. rewrite Hfv in Hph. discriminate.
  - destruct (executed_facts cached u w p1 p2 r Hp Hp1 Hr1 Hfv Hr Hp2)
      as (Hin & Hst & Htr & _).
    split; [|split].
    + intros ns' name' Hin'%elem_of_tracker_add. revert Hin'. observe_trace. cbn.
      intros [[= -> ->] | Hin']%elem_of_cons.
      2: { apply elem_of_cons in Hin' as [? | []%elem_of_nil]. discriminate. }
      exists cached, (stamped c cached w), u.
      split; [by rewrite Hr1|]. split; [exact Hin|]. do 3 (split; [reflexivity|]).
      split; [|split; [exact Htr|]].
      { unfold log_running, log_getting, log_cloning.
        repeat (rewrite last_cons || rewrite last_app). reflexivity. }
      exists ([log_running; log_getting; log_cloning] ++ events p1),
        ([EvLog ControllerLog DebugLevel "Running backup";
          EvRegisterBackupAttempt (GetLabel "ark-schedule" u)] ++
         events r ++ verdict_events (GetLabel "ark-schedule" u) r ++
         [EvLog ControllerLog DebugLevel "Updating backup's final status"] ++
         events p2 ++
         match res p2 with
         | Err _ => [EvLog ControllerLog ErrorLevel "error updating backup's final status"]
         | Ok _ => []
         end).
      split; [by rewrite <- !app_assoc|].
      split; [observe_trace; by rewrite Hr1|].
      split.
      { rewrite effects_app. cbn.
        pose proof (patchBackup_spec c cached (stamped c cached w) (stamp_world cached w))
          as Hspec. cbn in Hspec. rewrite <- Hp1, Hr1 in Hspec.
        destruct Hspec as (_ & _ & _ & -> & _). reflexivity. }
      split.
      { intros e He Hpe.
        rewrite !elem_of_app. right. left.
        split_trace He; try assumption.
        all: first
          [ by (subst; discriminate)
          | (rewrite Hp1 in He || rewrite Hp2 in He);
            apply patchBackup_elem in He as [-> | ->]; discriminate
          | unfold verdict_events in He;
            destruct (snd (res r)); split_trace He; subst; discriminate
          | destruct (res p2); split_trace He; subst; discriminate ]. }
      split.
      { intros schedule He.
        split_trace He; try discriminate.
        - (rewrite Hp1 in He); apply patchBackup_elem in He as [He | He]; discriminate.
        - rewrite He. find_event.
        - destruct (run_facts _ _ _ _ Hr) as (_ & _ & _ & _ & _ & _ & _ & Hpo).
          apply (pipeline_only_elem _ _ Hpo) in He. discriminate.
        - unfold verdict_events in He.
          destruct (snd (res r)); split_trace He; discriminate.
        - (rewrite Hp2 in He); apply patchBackup_elem in He as [He | He]; discriminate.
        - destruct (res p2); split_trace He; discriminate. }
      split; [reflexivity|].
      exists (decided r), (res p2). observe_trace. reflexivity.
    + intros ? ? ?. observe_trace. rewrite Hr1. cbn. intros [= _ <- _] Hph'. congruence.
    + intros ? ? ?. observe_trace. rewrite Hr1. cbn. intros [= _ _ <-] _. find_event.
Qed.

(** C10, as amended.  In a reconcile that reaches the Backupper, the phase
    in an uploaded manifest is Completed when the Backupper returned no
    error and Failed otherwise, whatever the later steps do.  The phase
    submitted by the terminal status patch is Failed exactly when one of
    the collected steps failed (the Backupper, the encoding, the size of the
    archive, the upload), Completed otherwise: a failure to flush the log
    is only logged, and changes neither phase. *)
Theorem manifest_phase_follows_backupper
    (key : string) (w : World) (b : Backup) (f : File) :
  EvBackupperBackup b f ∈ events (processBackup c key w) →
  (∀ name manifest archive logFile,
     EvPutBackup name (Some manifest) archive logFile ∈ events (processBackup c key w) →
     Phase (Status manifest) =
       match backupper_Backup c b f with
       | Some _ => BackupPhaseFailed
       | None => BackupPhaseCompleted
       end) ∧
  ∃ original updated answer,
    last (patch_calls (events (processBackup c key w))) = Some (original, updated, answer) ∧
    Phase (Status updated) =
      (if existsb (collected_failure c) (events (processBackup c key w))
       then BackupPhaseFailed else BackupPhaseCompleted) ∧
    ∀ stored, answer = Ok stored → Phase (Status stored) = Phase (Status updated).
Proof.
  intros Hin.
  destruct (pipeline_event_executed key w _ Hin eq_refl)
    as (cached & p1 & u & r & p2 & Hp & Hp1 & Hr1 & Hfv & Hr & Hp2 & Hinr & Hw & Hev).
  rewrite Hr in Hinr.
  destruct (backupper_call_located _ _ _ _ _ Hinr) as (lf & Hb' & Hres & Heff).
  rewrite <- Hr in Hres, Heff.
  destruct (decided_phase _ _ _ _ Hr) as (Hdec & _).
  destruct (executed_facts cached u w p1 p2 r Hp Hp1 Hr1 Hfv Hr Hp2)
    as (_ & _ & _ & _ & Hstored).
  rewrite Hev. split.
  - intros name manifest archive logFile Hput.
    executed_cases Hput Hp1 Hp2 r p2.
    assert (Hput' : EvPutBackup name (Some manifest) archive logFile ∈ effects (events r)).
    { apply elem_of_effects. auto. }
    rewrite Heff in Hput'. unfold full_run in Hput'.
    split_trace Hput'; try discriminate.
    injection Hput' as _ Hm _ _.
    destruct (encode_EncodeTo_err c _) in Hm; [discriminate|].
    injection Hm as ->. unfold finished. rewrite Hb'. cbn.
    by destruct (backupper_Backup c _ f).
  - exists u, (decided r), (res p2). observe_trace. cbn [last].
    split; [reflexivity|]. split; [|intros stored Hst; by destruct (Hstored stored Hst)].
    rewrite Hdec, Hres. cbn [snd].
    unfold log_running, log_getting, log_cloning.
    rewrite !existsb_app, (patch_no_collected_failure _ _ _ _ Hp1),
      (patch_no_collected_failure _ _ _ _ Hp2).
    rewrite <- (existsb_effects (collected_failure c) (events r)) by (by intros []).
    rewrite Heff.
    assert (existsb (collected_failure c) (verdict_events (GetLabel "ark-schedule" u) r)
            = false) as ->.
    { unfold verdict_events. by destruct (snd (res r)). }
    assert (existsb (collected_failure c)
              match res p2 with
              | Err _ => [EvLog ControllerLog ErrorLevel "error updating backup's final status"]
              | Ok _ => []
              end = false) as ->.
    { by destruct (res p2). }
    unfold full_run, collected. cbn.
    destruct (backupper_Backup c _ f); cbn; [reflexivity|].
    destruct (encode_EncodeTo_err c _); cbn; [reflexivity|].
    destruct (file_Stat c f); cbn; [|reflexivity].
    destruct (PutBackup_err c _ _ _ _); cbn; reflexivity.
Qed.

(** ** The reconciler, further *)

Lemma reconciler_metrics_app (l1 l2 : list Event) :
  reconciler_metrics (l1 ++ l2) = reconciler_metrics l1 ++ reconciler_metrics l2.
Proof. apply List.filter_app. Qed.

Lemma metric_schedules_app (l1 l2 : list Event) :
  metric_schedules (l1 ++ l2) = metric_schedules l1 ++ metric_schedules l2.
Proof. apply flat_map_app. Qed.

Lemma uploads_app (l1 l2 : list Event) : uploads (l1 ++ l2) = uploads l1 ++ uploads l2.
Proof. apply List.filter_app. Qed.

Lemma pipeline_only_no_verdict (evs : list Event) :
  pipeline_only evs = true → reconciler_metrics evs = [].
Proof.
  induction evs as [|e evs IH]; cbn; [auto|].
  intros [He Hr]%andb_prop. fold (reconciler_metrics evs). rewrite (IH Hr).
  by destruct e.
Qed.

(** What a call of [patchBackup] adds to the further observations. *)
Lemma patch_facts_more (p : Outcome (result Backup)) (original updated : Backup) (w : World) :
  p = patchBackup c original updated w →
  reconciler_metrics (events p) = [] ∧
  metric_schedules (events p) = [] ∧
  uploads (events p) = [] ∧
  (patch_requests (events p) = [] ∨
   patch_requests (events p) = [CreateMergePatch original updated]) ∧
  (∀ u, res p = Ok u → patch_requests (events p) = [CreateMergePatch original updated]).
Proof.
  intros ->.
  pose proof (patchBackup_spec c original updated w) as H. cbn in H.
  destruct (patchBackup_events c original updated w) as [Hev | Hev]; rewrite Hev; cbn.
  - repeat split; auto. intros u Hu. rewrite Hu in H.
    destruct H as (_ & _ & _ & Hev' & _). rewrite Hev in Hev'. discriminate.
  - repeat split; auto.
Qed.

(** The gate: a request that is not new is left alone. *)
Lemma gate_closed (key ns name : string) (backup : Backup) (w : World) :
  SplitMetaNamespaceKey c key = Ok (ns, name) →
  lister_Get c ns name = Ok backup →
  phase_is_new (Phase (Status backup)) = false →
  processBackup c key w = mkOutcome None w [log_running; log_getting].
Proof.
  intros Hk Hg Hp. run_reconciler. rewrite Hk; cbn. rewrite Hg; cbn. by rewrite Hp.
Qed.

(** The gate: a new request in the cache reaches the first status patch. *)
Lemma gate_open (key ns name : string) (backup : Backup) (w : World) :
  SplitMetaNamespaceKey c key = Ok (ns, name) →
  lister_Get c ns name = Ok backup →
  phase_is_new (Phase (Status backup)) = true →
  ∃ answer, head (patch_calls (events (processBackup c key w)))
            = Some (backup, stamped c backup w, answer).
Proof.
  intros Hk0 Hg0 Hp0.
  reconcile_paths key w; try congruence.
  all: rewrite Hk0 in Hk; injection Hk as <- <-.
  all: rewrite Hg0 in Hg; injection Hg as <-.
  all: observe_trace; cbn; eauto.
Qed.

(** X1.  An error is returned only before anything is executed.  When
    [processBackup] returns an error, either the key did not decode or the
    request was not in the cache, or the first status patch failed and the
    error names the phase that was being written.  In every such run the
    tracker is never called and is left as it was, the store is left as it
    was, no metric is emitted and no step of the pipeline runs: retrying
    the key repeats nothing. *)
Theorem processBackup_error_precedes_execution
    (key : string) (w : World) (err : GoError) :
  res (processBackup c key w) = Some err →
  (lookup_failure c key = Some err ∨
   ∃ original updated cause,
     patch_calls (events (processBackup c key w)) = [(original, updated, Err cause)] ∧
     err = ErrWrap cause ("error updating Backup status to " +:+ Phase (Status updated))) ∧
  tracker_events (events (processBackup c key w)) = [] ∧
  w_tracker (world (processBackup c key w)) = w_tracker w ∧
  w_server (world (processBackup c key w)) = w_server w ∧
  reconciler_metrics (events (processBackup c key w)) = [] ∧
  (∀ e, e ∈ events (processBackup c key w) → is_pipeline_event e = false).
Proof.
  reconcile_paths key w; try discriminate.
  - intros [= <-]. split; [left; unfold lookup_failure; by rewrite Hk|].
    repeat split; try reflexivity.
    intros e' Hin. split_trace Hin; by subst.
  - intros [= <-]. split; [left; unfold lookup_failure; by rewrite Hk, Hg|].
    repeat split; try reflexivity.
    intros e' Hin. split_trace Hin; by subst.
  - intros [= <-].
    destruct (patch_facts _ _ _ _ Hp1) as (_ & _ & Ht & _).
    destruct (patch_facts_more _ _ _ _ Hp1) as (Hm & _).
    destruct (stamp_world_frame cached w) as (Hs0 & Ht0 & _).
    pose proof (patchBackup_spec c cached (stamped c cached w) (stamp_world cached w))
      as Hspec; cbn in Hspec; rewrite <- Hp1, Hr1 in Hspec.
    destruct Hspec as (_ & _ & _ & Hs & _).
    split.
    { right. exists cached, (stamped c cached w), kerr. observe_trace. rewrite Hr1. auto. }
    split; [by observe_trace|]. split; [congruence|]. split; [congruence|].
    split; [by rewrite reconciler_metrics_app, Hm|].
    intros e' Hin. split_trace Hin; subst; try reflexivity.
    apply patchBackup_elem in Hin as [-> | ->]; reflexivity.
Qed.

Lemma verdict_more (schedule : string) (r : Outcome (Backup * option GoError)) :
  uploads (verdict_events schedule r) = [] ∧
  reconciler_metrics (verdict_events schedule r) =
    match snd (res r) with
    | Some _ => [EvRegisterBackupFailed schedule]
    | None => [EvRegisterBackupSuccess schedule]
    end ∧
  metric_schedules (verdict_events schedule r) = [schedule].
Proof. unfold verdict_events. by destruct (snd (res r)). Qed.

Lemma final_log_more (r : result Backup) :
  let l := match r with
           | Err _ => [EvLog ControllerLog ErrorLevel "error updating backup's final status"]
           | Ok _ => []
           end in
  reconciler_metrics l = [] ∧ metric_schedules l = [] ∧ uploads l = [].
Proof. by destruct r. Qed.

(** Distribute the further observations over a trace and its sub-runs. *)
Ltac observe_more :=
  rewrite ?reconciler_metrics_app, ?metric_schedules_app, ?uploads_app;
  repeat match goal with
  | H : _ = patchBackup _ _ _ _ |- _ =>
      progress (rewrite ?(proj1 (patch_facts_more _ _ _ _ H)),
                        ?(proj1 (proj2 (patch_facts_more _ _ _ _ H))),
                        ?(proj1 (proj2 (proj2 (patch_facts_more _ _ _ _ H)))))
  | H : _ = runBackup _ _ _ _ |- _ =>
      progress (rewrite ?(pipeline_only_no_verdict _
                            (proj2 (proj2 (proj2 (proj2 (proj2 (proj2 (proj2
                               (run_facts _ _ _ _ H))))))))))
  end;
  rewrite ?(proj1 (verdict_more _ _)), ?(proj1 (proj2 (verdict_more _ _))),
    ?(proj2 (proj2 (verdict_more _ _))),
    ?(proj1 (final_log_more _)), ?(proj1 (proj2 (final_log_more _))),
    ?(proj2 (proj2 (final_log_more _))).

(** X2.  The attempt, success and failure metrics.  A reconcile emits
    none of them unless it runs the pipeline; when it does, it emits the
    attempt metric once and then exactly one of the success and the failure
    metric, keyed by the schedule label of the request as the first patch
    returned it: success when the request ends Completed, failure when it
    ends Failed. *)
Theorem reconcile_metrics_shape (key : string) (w : World) :
  (reconciler_metrics (events (processBackup c key w)) = [] ∧
   (length (patch_calls (events (processBackup c key w))) ≤ 1)%nat) ∨
  ∃ cached original updated answer,
    patch_calls (events (processBackup c key w))
      = [(cached, stamped c cached w, Ok original); (original, updated, answer)] ∧
    ((Phase (Status updated) = BackupPhaseCompleted ∧
      reconciler_metrics (events (processBackup c key w))
        = [EvRegisterBackupAttempt (GetLabel "ark-schedule" original);
           EvRegisterBackupSuccess (GetLabel "ark-schedule" original)]) ∨
     (Phase (Status updated) = BackupPhaseFailed ∧
      reconciler_metrics (events (processBackup c key w))
        = [EvRegisterBackupAttempt (GetLabel "ark-schedule" original);
           EvRegisterBackupFailed (GetLabel "ark-schedule" original)])).
Proof.
  reconcile_paths key w.
  1-3: left; split; [reflexivity|cbn; lia].
  1-2: left; observe_trace; observe_more; split; [reflexivity|cbn; lia].
  right. exists cached, u, (decided r), (res p2).
  split; [observe_trace; by rewrite Hr1|].
  destruct (decided_phase _ _ _ _ Hr) as (Hdec & _).
  observe_more. cbn.
  destruct (snd (res r)); [right|left]; auto.
Qed.

(** X3.  The phases written to the store.  A reconcile sends at most two
    patch documents.  The first always carries a phase, InProgress or
    FailedValidation; a second is sent only after InProgress and carries
    Completed or Failed.  No document ever writes the empty phase or New. *)
Theorem phases_are_written_in_order (key : string) (w : World) :
  patch_requests (events (processBackup c key w)) = [] ∨
  (∃ q1, patch_requests (events (processBackup c key w)) = [q1] ∧
         (p_Phase q1 = Some BackupPhaseInProgress ∨
          p_Phase q1 = Some BackupPhaseFailedValidation)) ∨
  (∃ q1 q2, patch_requests (events (processBackup c key w)) = [q1; q2] ∧
            p_Phase q1 = Some BackupPhaseInProgress ∧
            (p_Phase q2 = Some BackupPhaseCompleted ∨
             p_Phase q2 = Some BackupPhaseFailed)).
Proof.
  assert (Hfirst : ∀ cached, phase_is_new (Phase (Status cached)) = true →
            p_Phase (CreateMergePatch cached (stamped c cached w))
              = Some (Phase (Status (stamped c cached w))) ∧
            (Phase (Status (stamped c cached w)) = BackupPhaseInProgress ∨
             Phase (Status (stamped c cached w)) = BackupPhaseFailedValidation)).
  { intros cached Hp. split.
    - cbn. unfold diff_field. case_decide as Heq; [|reflexivity].
      by apply (stamped_phase_changes cached w) in Hp.
    - pose proof (stamped_spec cached w) as (_ & _ & _ & _ & _ & _ & _ & _ & Hsp).
      cbn in Hsp. rewrite Hsp. destruct (getLocationAndValidate c _ _).2; auto. }
  reconcile_paths key w; [by left..| | |].
  - (* the first patch failed *)
    destruct (patch_facts_more _ _ _ _ Hp1) as (_ & _ & _ & [Hq | Hq] & _).
    + left. by rewrite patch_requests_app, Hq.
    + right. left. eexists. rewrite patch_requests_app, Hq.
      split; [reflexivity|].
      destruct (Hfirst cached Hp) as [-> [-> | ->]]; auto.
  - (* the request failed validation *)
    destruct (patch_facts_more _ _ _ _ Hp1) as (_ & _ & _ & _ & Hq).
    right. left. eexists. rewrite patch_requests_app, (Hq u Hr1).
    split; [reflexivity|].
    destruct (Hfirst cached Hp) as [-> [-> | ->]]; auto.
  - (* the pipeline ran *)
    destruct (patch_facts_more _ _ _ _ Hp1) as (_ & _ & _ & _ & Hq1).
    destruct (patch_facts_more _ _ _ _ Hp2) as (_ & _ & _ & Hq2 & _).
    destruct (executed_facts cached u w p1 p2 r Hp Hp1 Hr1 Hfv Hr Hp2)
      as (Hin & Hst & _ & Hne & _).
    destruct (decided_phase _ _ _ _ Hr) as (Hdec & _).
    destruct (Hfirst cached Hp) as [Hph1 _]. rewrite Hst in Hph1.
    observe_trace. rewrite (Hq1 u Hr1). cbn [app patch_requests flat_map].
    destruct Hq2 as [-> | ->].
    + right. left. eexists. split; [reflexivity|]. auto.
    + right. right. do 2 eexists. split; [reflexivity|]. split; [exact Hph1|].
      cbn. unfold diff_field. case_decide as Heq; [by rewrite Heq in Hne|].
      rewrite Hdec. destruct (snd (res r)); auto.
Qed.

(** X4.  What the first patch records.  The copy submitted by the first
    status patch is a copy of a new request under the same namespace and
    name, stamped with the status version 1; it lists the validation errors
    and its phase is FailedValidation exactly when there are some,
    InProgress exactly when there are none. *)
Theorem first_patch_records_validation
    (key : string) (w : World) (original updated : Backup) (answer : result Backup) :
  head (patch_calls (events (processBackup c key w))) = Some (original, updated, answer) →
  phase_is_new (Phase (Status original)) = true ∧
  Namespace updated = Namespace original ∧ Name updated = Name original ∧
  Version (Status updated) = backupVersion ∧
  ValidationErrors (Status updated)
    = (getLocationAndValidate c (versioned c original w) (defaultBackupLocation c)).2 ∧
  (ValidationErrors (Status updated) = [] ↔
   Phase (Status updated) = BackupPhaseInProgress) ∧
  (ValidationErrors (Status updated) ≠ [] ↔
   Phase (Status updated) = BackupPhaseFailedValidation).
Proof.
  reconcile_paths key w; try discriminate.
  all: observe_trace; cbn; intros [= <- <- _].
  all: pose proof (stamped_spec cached w)
         as (Hns & Hnm & _ & _ & _ & Hv & _ & Hve & Hph); cbn in Hve, Hph.
  all: split; [exact Hp|]; split; [exact Hns|]; split; [exact Hnm|]; split; [exact Hv|].
  all: split; [exact Hve|]; rewrite Hve, Hph.
  all: destruct (getLocationAndValidate c _ _).2; split; split; done.
Qed.

(** X5.  A request without a positive TTL.  When the TTL of the request is
    zero or negative, the copy keeps the expiration it had, and no patch
    document of the reconcile carries an expiration.  Whatever the TTL, the
    terminal patch changes no expiration. *)
Theorem no_ttl_leaves_expiration
    (key : string) (w : World) (original updated : Backup) (answer : result Backup) :
  head (patch_calls (events (processBackup c key w))) = Some (original, updated, answer) →
  ((TTL (Spec original) ≤ 0)%Z →
   Expiration (Status updated) = Expiration (Status original) ∧
   ∀ q, q ∈ patch_requests (events (processBackup c key w)) → p_Expiration q = None) ∧
  (∀ o2 u2 a2,
     patch_calls (events (processBackup c key w))
       = [(original, updated, answer); (o2, u2, a2)] →
     Expiration (Status u2) = Expiration (Status o2)).
Proof.
  reconcile_paths key w; try discriminate.
  all: observe_trace; cbn [patch_calls flat_map app log_running log_getting log_cloning head];
    intros [= <- <- <-].
  all: pose proof (stamped_spec cached w) as (_ & _ & _ & _ & _ & _ & Hexp & _);
    cbn in Hexp.
  all: assert (Hnone : (TTL (Spec cached) ≤ 0)%Z →
                       p_Expiration (CreateMergePatch cached (stamped c cached w)) = None
                       ∧ Expiration (Status (stamped c cached w))
                         = Expiration (Status cached))
    by (intros Httl; apply Z.ltb_ge in Httl; rewrite Httl in Hexp; split; [|exact Hexp];
        cbn; unfold diff_field; case_decide; [reflexivity|congruence]).
  1-2: split; [|discriminate];
       intros Httl; destruct (Hnone Httl) as [Hq He]; split; [exact He|];
       intros q Hin; rewrite ?patch_requests_app in Hin; cbn in Hin;
       destruct (patch_facts _ _ _ _ Hp1) as (_ & _ & _ & _ & Hreq & _);
       by apply Hreq in Hin as ->.
  destruct (decided_phase _ _ _ _ Hr) as (_ & Hsame & _).
  destruct Hsame as (_ & _ & _ & _ & _ & Hexp2 & _).
  split.
  - intros Httl. destruct (Hnone Httl) as [Hq He]. split; [exact He|].
    destruct (patch_facts _ _ _ _ Hp1) as (_ & _ & _ & _ & Hreq1 & _).
    destruct (patch_facts _ _ _ _ Hp2) as (_ & _ & _ & _ & Hreq2 & _).
    intros q Hin. revert Hin. observe_trace.
    rewrite !elem_of_app. intros Hin.
    repeat match type of Hin with _ ∨ _ => destruct Hin as [Hin | Hin] end.
    all: first
      [ apply Hreq1 in Hin as ->; exact Hq
      | apply Hreq2 in Hin as ->; cbn; unfold diff_field;
        case_decide; [reflexivity|congruence]
      | cbn in Hin; by apply elem_of_nil in Hin ].
  - intros o2 u2 a2 [= <- <- _]. exact Hexp2.
Qed.

(** X6.  The pipeline is given the resolved location.  Whenever a
    reconcile creates an object store, it is for a storage location that
    exists: the one the lister returns for the namespace of the request and
    its effective storage-location name.  The pipeline never runs with a nil
    location. *)
Theorem pipeline_gets_resolved_location
    (key : string) (w : World) (loc : option BackupStorageLocation) :
  EvNewBackupStore loc ∈ events (processBackup c key w) →
  ∃ original updated answer l,
    head (patch_calls (events (processBackup c key w))) = Some (original, updated, answer) ∧
    loc = Some l ∧
    backupLocationLister_Get c (Namespace original) (StorageLocation (Spec updated)) = Ok l ∧
    ValidationErrors (Status updated) = [].
Proof.
  intros Hin.
  destruct (pipeline_event_executed key w _ Hin eq_refl)
    as (cached & p1 & u & r & p2 & Hp & Hp1 & Hr1 & Hfv & Hr & Hp2 & Hinr & Hw & Hev).
  rewrite Hr in Hinr. apply run_store_location in Hinr. subst loc.
  destruct (executed_facts cached u w p1 p2 r Hp Hp1 Hr1 Hfv Hr Hp2) as (_ & Hst & _).
  pose proof (stamped_spec cached w) as (_ & _ & _ & _ & _ & _ & _ & Hve & Hph).
  cbn in Hve, Hph.
  assert (Herrs : (getLocationAndValidate c (versioned c cached w)
                     (defaultBackupLocation c)).2 = []).
  { rewrite Hst in Hph. by destruct (getLocationAndValidate c _ _).2. }
  destruct (getLocationAndValidate_resolved c _ _ Herrs) as (l & Hl & Hget).
  exists cached, (stamped c cached w), (res p1), l.
  split; [rewrite Hev; observe_trace; reflexivity|].
  split; [exact Hl|]. split; [|by rewrite Hve].
  assert (Hns : Namespace (versioned c cached w) = Namespace cached).
  { unfold versioned. cbn. by destruct (0 <? TTL (Spec cached))%Z. }
  rewrite Hns in Hget. rewrite <- Hget. f_equal.
  unfold stamped.
  destruct (getLocationAndValidate c (versioned c cached w) (defaultBackupLocation c))
    as [[itm l'] errs]. cbn. by destruct errs.
Qed.

(** X7.  A pipeline that cannot start.  When the pipeline was started but
    never reached the Backupper (a temporary file, the item actions or the
    object store could not be obtained), the request ends Failed with the
    failure metric, nothing at all is uploaded, not even the log, and the
    completion timestamp is left as it was: only the start timestamp was
    stamped. *)
Theorem pipeline_that_cannot_start (key : string) (w : World) (schedule : string) :
  EvRegisterBackupAttempt schedule ∈ events (processBackup c key w) →
  (∀ b f, EvBackupperBackup b f ∉ events (processBackup c key w)) →
  ∃ original updated answer,
    last (patch_calls (events (processBackup c key w))) = Some (original, updated, answer) ∧
    Phase (Status updated) = BackupPhaseFailed ∧
    CompletionTimestamp (Status updated) = CompletionTimestamp (Status original) ∧
    uploads (events (processBackup c key w)) = [] ∧
    reconciler_metrics (events (processBackup c key w))
      = [EvRegisterBackupAttempt schedule; EvRegisterBackupFailed schedule].
Proof.
  reconcile_paths key w; intros Hin Hnever.
  1-5: split_trace Hin; try discriminate; not_in_patch Hin.
  assert (Hs : schedule = GetLabel "ark-schedule" u).
  { executed_cases Hin Hp1 Hp2 r p2.
    - by injection Hin.
    - destruct (run_facts _ _ _ _ Hr) as (_ & _ & _ & _ & _ & _ & _ & Hpo).
      apply (pipeline_only_elem _ _ Hpo) in Hin. discriminate. }
  subst schedule.
  destruct (acquired c (resolved c cached w) (track (Namespace u) (Name u) (world p1)))
    eqn:Hacq.
  { destruct (run_backupper_acquired c u _ _ Hacq) as (b & f & Hb).
    rewrite <- Hr in Hb. exfalso. apply (Hnever b f).
    rewrite !elem_of_app. do 3 right. left. exact Hb. }
  destruct (runBackup_early c u _ _ Hacq) as (Hfst & Herr & _).
  pose proof (run_uploads_early c u _ _ Hacq) as Hup.
  rewrite <- Hr in Hfst, Herr, Hup.
  exists u, (decided r), (res p2).
  split; [by observe_trace|].
  assert (Hdec : decided r = set_Phase BackupPhaseFailed
                               (started c u (track (Namespace u) (Name u) (world p1)))).
  { unfold decided. rewrite Hfst. by destruct (snd (res r)). }
  rewrite Hdec. split; [reflexivity|]. split; [reflexivity|].
  observe_more. rewrite Hup. split; [reflexivity|].
  cbn. by destruct (snd (res r)).
Qed.

(** X8.  One schedule label for all metrics.  Every metric of a reconcile,
    those of the reconciler and those of the pipeline, is keyed by the same
    schedule label: the one of the request as the first patch returned it. *)
Theorem metrics_share_schedule_label (key : string) (w : World) (schedule : string) :
  schedule ∈ metric_schedules (events (processBackup c key w)) →
  ∃ original updated stored,
    head (patch_calls (events (processBackup c key w)))
      = Some (original, updated, Ok stored) ∧
    schedule = GetLabel "ark-schedule" stored.
Proof.
  reconcile_paths key w.
  1-3: by intros []%elem_of_nil.
  1-2: observe_more; by intros []%elem_of_nil.
  intros Hin. exists cached, (stamped c cached w), u.
  split; [observe_trace; by rewrite Hr1|].
  revert Hin. observe_more. rewrite !elem_of_app. intros Hin.
  repeat match type of Hin with _ ∨ _ => destruct Hin as [Hin | Hin] end.
  all: try (cbn in Hin; split_trace Hin; done).
  rewrite Hr in Hin. by apply run_metric_schedules in Hin.
Qed.

(** Once the first patch has landed, the stored request is not new. *)
Lemma landed_request_is_not_new
    (key : string) (w : World) (original updated first b : Backup)
    (rest : list (Backup * Backup * result Backup)) :
  patch_calls (events (processBackup c key w)) = (original, updated, Ok first) :: rest →
  w_server (world (processBackup c key w)) !! (Namespace original, Name original) = Some b →
  phase_is_new (Phase (Status b)) = false.
Proof.
  reconcile_paths key w; try discriminate.
  - observe_trace. rewrite Hr1. discriminate.
  - observe_trace. rewrite Hr1. cbn. intros [= <- _ <- _] Hb.
    subst p1. destruct (first_patch_phase cached u w Hp Hr1) as (_ & Hs).
    rewrite Hs in Hb. injection Hb as <-. by rewrite Hfv.
  - observe_trace. rewrite Hr1.
    cbn [patch_calls flat_map app log_running log_getting log_cloning].
    intros [= <- _ <- _] Hb.
    destruct (executed_facts cached u w p1 p2 r Hp Hp1 Hr1 Hfv Hr Hp2)
      as (Hin & _ & _ & _ & _).
    destruct (decided_phase _ _ _ _ Hr) as (Hdec & _).
    destruct (run_facts _ _ _ _ Hr) as (_ & _ & _ & Hs2 & _).
    assert (Hs1 : w_server (world p1) !! (Namespace cached, Name cached) = Some u).
    { subst p1. by destruct (first_patch_phase cached u w Hp Hr1) as (_ & ?). }
    pose proof (patchBackup_spec c u (decided r) (world r)) as H2.
    cbn in H2. rewrite <- Hp2 in H2. unfold untrack in Hb; cbn in Hb.
    destruct (res p2) as [u2|e2].
    + destruct H2 as (_ & _ & _ & _ & _ & obj & _ & Hu2 & Hsrv).
      rewrite Hsrv, Hs2 in Hb. unfold track in Hb; cbn in Hb.
      rewrite lookup_insert in Hb. case_decide.
      * injection Hb as <-. rewrite Hu2.
        rewrite applyMergePatch_Phase, Hdec; [by destruct (snd (res r))|].
        rewrite Hdec, Hin. by destruct (snd (res r)).
      * rewrite Hs1 in Hb. injection Hb as <-. by rewrite Hin.
    + destruct H2 as (_ & _ & _ & Hsrv & _).
      rewrite Hsrv, Hs2 in Hb. unfold track in Hb; cbn in Hb.
      rewrite Hs1 in Hb. injection Hb as <-. by rewrite Hin.
Qed.

End Reconciler.

(** ** The claims on explicit runs *)

(** C2 fails as stated: with a plugin manager that cannot load the item
    actions, the pipeline returns the error before the Backupper, and runs
    neither the upload nor the metrics. *)
Lemma pipeline_stops_without_actions :
  snd (res (runBackup env_no_actions example_in_progress (Some example_location)
              (example_world example_in_progress))) = Some (ErrMsg "plugin exited") ∧
  all_steps_run
    (events (runBackup env_no_actions example_in_progress (Some example_location)
               (example_world example_in_progress))) = false ∧
  effects
    (events (runBackup env_no_actions example_in_progress (Some example_location)
               (example_world example_in_progress)))
  = [EvTempFile (Ok "/tmp/log"); EvTempFile (Ok "/tmp/backup"); EvNewPluginManager;
     EvGetBackupItemActions; EvCleanupClients;
     EvFileClose "/tmp/backup"; EvRemove "/tmp/backup";
     EvFileClose "/tmp/log"; EvRemove "/tmp/log"; EvGzipClose "/tmp/log"].
Proof. vm_compute. auto. Qed.

(** C3 fails as stated: with a clock that advances between the stamping of
    the copy and the start of the pipeline, a full successful reconcile
    ends with expiration 110 and start timestamp 105 for a TTL of 10. *)
Lemma expiration_differs_from_start_plus_ttl :
  res (processBackup env_ok example_key (example_world example_new)) = None ∧
  ∃ b, stored (processBackup env_ok example_key (example_world example_new)) example_new
         = Some b ∧
       Phase (Status b) = BackupPhaseCompleted ∧
       (0 < TTL (Spec b))%Z ∧
       Expiration (Status b) ≠ Time_Add (StartTimestamp (Status b)) (TTL (Spec b)).
Proof.
  split; [by vm_compute|].
  eexists. split; [vm_compute; reflexivity|].
  split; [reflexivity|]. split; [reflexivity|]. vm_compute. discriminate.
Qed.

(** C6 fails as stated: for a request that is not in the cache, and for a
    key that does not decode, [processBackup] returns an error, not nil. *)
Lemma missing_request_is_an_error :
  res (processBackup env_not_found example_key (example_world example_new))
    = Some (ErrWrap (ErrMsg "backup not found") "error getting backup") ∧
  res (processBackup env_not_found "a/b/c" (example_world example_new))
    = Some (ErrWrap (ErrMsg "unexpected key format") "error splitting queue key").
Proof. split; reflexivity. Qed.

(** C10 fails as stated: when only the flush of the log stream fails, the
    reconcile ends with the stored phase Completed, not Failed. *)
Lemma flush_failure_leaves_completed :
  existsb (flush_failure env_flush_fails)
    (events (processBackup env_flush_fails example_key (example_world example_new))) = true ∧
  EvLog ControllerLog ErrorLevel "error closing gzippedLogFile"
    ∈ events (processBackup env_flush_fails example_key (example_world example_new)) ∧
  ∃ b, stored (processBackup env_flush_fails example_key (example_world example_new))
         example_new = Some b ∧
       Phase (Status b) = BackupPhaseCompleted ∧
       Phase (Status b) ≠ BackupPhaseFailed.
Proof.
  split; [by vm_compute|]. split.
  - apply list_elem_of_In. vm_compute. tauto.
  - eexists. split; [vm_compute; reflexivity|]. split; [reflexivity|discriminate].
Qed.

(** ** The theorems on explicit runs *)

(** C1 on a completed request: the reconcile is a no-op. *)
Lemma processBackup_not_new_is_noop_witness :
  Phase (Status example_completed) ≠ "" ∧
  Phase (Status example_completed) ≠ BackupPhaseNew ∧
  processBackup env_completed example_key (example_world example_completed)
    = mkOutcome None (example_world example_completed) [log_running; log_getting].
Proof.
  split; [discriminate|]. split; [discriminate|].
  apply (processBackup_not_new_is_noop env_completed example_key "heptio-ark" "nightly"
           example_completed (example_world example_completed));
    [reflexivity | reflexivity | discriminate | discriminate].
Defined.

(** C6 on a request that is not in the cache: the error is returned. *)
Lemma processBackup_lookup_failure_is_returned_witness :
  lookup_failure env_not_found example_key
    = Some (ErrWrap (ErrMsg "backup not found") "error getting backup") ∧
  res (processBackup env_not_found example_key (example_world example_new))
    = Some (ErrWrap (ErrMsg "backup not found") "error getting backup").
Proof.
  split; [reflexivity|].
  apply (processBackup_lookup_failure_is_returned env_not_found example_key
           (ErrWrap (ErrMsg "backup not found") "error getting backup")
           (example_world example_new)).
  reflexivity.
Defined.

(** C4 on a request that includes and excludes the namespace default. *)
Lemma contradictory_lists_fail_validation_witness :
  contradictory (IncludedNamespaces (Spec example_contradictory))
    (ExcludedNamespaces (Spec example_contradictory)) ∧
  Phase (Status (stamped env_contradictory example_contradictory
                   (example_world example_contradictory)))
    = BackupPhaseFailedValidation.
Proof.
  assert (H : contradictory (IncludedNamespaces (Spec example_contradictory))
                (ExcludedNamespaces (Spec example_contradictory))).
  { left. exists "default". split; apply list_elem_of_here. }
  split; [exact H|].
  apply (contradictory_lists_fail_validation env_contradictory example_key
           "heptio-ark" "nightly" example_contradictory
           (example_world example_contradictory));
    [reflexivity | reflexivity | reflexivity | right; exact H].
Defined.

(** C7 on a store that refuses the second patch request. *)
Lemma terminal_patch_failure_is_not_surfaced_witness :
  ∃ first original updated err,
    patch_calls (events (processBackup env_terminal_patch_fails example_key
                           (example_world example_new)))
      = [first; (original, updated, Err err)] ∧
    res (processBackup env_terminal_patch_fails example_key (example_world example_new))
      = None.
Proof.
  do 4 eexists.
  assert (H : patch_calls (events (processBackup env_terminal_patch_fails example_key
                                     (example_world example_new)))
              = [_; (_, _, Err _)]) by (vm_compute; reflexivity).
  split; [exact H|].
  apply (terminal_patch_failure_is_not_surfaced env_terminal_patch_fails example_key
           (example_world example_new) _ _ _ _ H).
Defined.

(** C3 on a successful reconcile of a request with a TTL of 10. *)
Lemma expiration_is_set_once_witness :
  ∃ o1 u1 r1 o2 u2 r2,
    patch_calls (events (processBackup env_ok example_key (example_world example_new)))
      = [(o1, u1, Ok r1); (o2, u2, Ok r2)] ∧
    (0 < TTL (Spec o1))%Z ∧
    w_server (example_world example_new) !! (Namespace o1, Name o1) = Some o1 ∧
    Expiration (Status r2) = Expiration (Status u1) ∧
    Expiration (Status u1)
      = Time_Add (clock_Now env_ok (w_clock (example_world example_new))) (TTL (Spec o1)).
Proof.
  do 6 eexists.
  assert (H : patch_calls (events (processBackup env_ok example_key
                                     (example_world example_new)))
              = [(_, _, Ok _); (_, _, Ok _)]) by (vm_compute; reflexivity).
  assert (Httl : (0 < 10)%Z) by reflexivity.
  assert (Hcoh : w_server (example_world example_new)
                   !! (Namespace example_new, Name example_new) = Some example_new)
    by (vm_compute; reflexivity).
  split; [exact H|]. split; [exact Httl|]. split; [exact Hcoh|].
  destruct (expiration_is_set_once env_ok example_key (example_world example_new)
              _ _ _ _ _ _ H Httl Hcoh) as (H1 & _ & _ & H4 & _).
  split; [exact H4|exact H1].
Defined.

(** C5 on a Backupper that fails. *)
Lemma backupper_failure_does_not_stop_pipeline_witness :
  ∃ b f err,
    EvBackupperBackup b f
      ∈ events (processBackup env_backupper_fails example_key (example_world example_new)) ∧
    backupper_Backup env_backupper_fails b f = Some err ∧
    ∃ schedule,
      EvRegisterBackupFailed schedule
        ∈ events (processBackup env_backupper_fails example_key (example_world example_new)).
Proof.
  do 3 eexists.
  eassert (H : EvBackupperBackup _ _
                 ∈ events (processBackup env_backupper_fails example_key
                             (example_world example_new))).
  { vm_compute. repeat first [apply list_elem_of_here | apply list_elem_of_further]. }
  eassert (Hb : backupper_Backup env_backupper_fails _ _ = Some _) by reflexivity.
  split; [exact H|]. split; [exact Hb|].
  destruct (backupper_failure_does_not_stop_pipeline env_backupper_fails example_key
              (example_world example_new) _ _ _ H Hb) as (_ & _ & Hfailed & _).
  exact Hfailed.
Defined.

(** C10 on a run whose log stream fails to flush. *)
Lemma manifest_phase_follows_backupper_witness :
  ∃ b f,
    EvBackupperBackup b f
      ∈ events (processBackup env_flush_fails example_key (example_world example_new)) ∧
    ∃ original updated answer,
      last (patch_calls (events (processBackup env_flush_fails example_key
                                   (example_world example_new))))
        = Some (original, updated, answer) ∧
      Phase (Status updated) =
        (if existsb (collected_failure env_flush_fails)
              (events (processBackup env_flush_fails example_key
                         (example_world example_new)))
         then BackupPhaseFailed else BackupPhaseCompleted).
Proof.
  do 2 eexists.
  eassert (H : EvBackupperBackup _ _
                 ∈ events (processBackup env_flush_fails example_key
                             (example_world example_new))).
  { vm_compute. repeat first [apply list_elem_of_here | apply list_elem_of_further]. }
  split; [exact H|].
  destruct (manifest_phase_follows_backupper env_flush_fails example_key
              (example_world example_new) _ _ H) as (_ & o & u & a & H1 & H2 & _).
  exists o, u, a. split; [exact H1|exact H2].
Defined.

(** C2 on a pipeline with all its collaborators, and on one without the
    item actions. *)
Lemma pipeline_completes_once_acquired_witness :
  acquired env_ok (Some example_location) (example_world example_in_progress) = true ∧
  effects
    (events (runBackup env_ok example_in_progress (Some example_location)
               (example_world example_in_progress)))
    = full_run env_ok example_in_progress (Some example_location)
        (example_world example_in_progress) "/tmp/log" "/tmp/backup" ∧
  snd (res (runBackup env_ok example_in_progress (Some example_location)
              (example_world example_in_progress))) = None ∧
  all_steps_run
    (events (runBackup env_ok example_in_progress (Some example_location)
               (example_world example_in_progress))) = true ∧
  acquired env_no_actions (Some example_location) (example_world example_in_progress) = false ∧
  snd (res (runBackup env_no_actions example_in_progress (Some example_location)
              (example_world example_in_progress))) ≠ None ∧
  res (processBackup env_no_actions example_key (example_world example_new)) = None.
Proof.
  destruct (pipeline_completes_once_acquired env_ok example_in_progress
              (Some example_location) (example_world example_in_progress)
              example_key (example_world example_new)) as (Hall & _ & _).
  destruct (pipeline_completes_once_acquired env_no_actions example_in_progress
              (Some example_location) (example_world example_in_progress)
              example_key (example_world example_new)) as (_ & Hearly & Hgoes).
  destruct (Hall eq_refl) as (lf & bf & H1 & H2 & Heff & _ & Hnil & Hsteps).
  assert (Hlf : lf = "/tmp/log") by (vm_compute in H1; congruence).
  assert (Hbf : bf = "/tmp/backup") by (vm_compute in H2; congruence).
  rewrite Hlf, Hbf in Heff.
  split; [reflexivity|]. split; [exact Heff|].
  split; [apply Hnil; vm_compute; reflexivity|]. split; [exact Hsteps|].
  destruct (Hearly eq_refl) as (_ & Hne & _).
  split; [reflexivity|]. split; [exact Hne|].
  apply (Hgoes "").
  apply list_elem_of_In. vm_compute. tauto.
Defined.

(** C8 on a request without a storage location, and on one whose storage
    location does not exist. *)
Lemma storage_location_is_defaulted_and_labelled_witness :
  (getLocationAndValidate env_ok example_new "default").1.1.(Labels)
    !! "ark.heptio.com/storage-location" = Some "default" ∧
  (getLocationAndValidate env_ok example_elsewhere "default").1.1.(Labels)
    !! "ark.heptio.com/storage-location" = Some "missing" ∧
  (getLocationAndValidate env_ok example_elsewhere "default").2 ≠ [].
Proof.
  pose proof (storage_location_is_defaulted_and_labelled env_ok example_new "default"
                example_key (example_world example_new)) as [H1 _].
  pose proof (storage_location_is_defaulted_and_labelled env_ok example_elsewhere "default"
                example_key (example_world example_new)) as [H2 _].
  destruct (getLocationAndValidate env_ok example_new "default") as [[itm1 loc1] errs1].
  destruct (getLocationAndValidate env_ok example_elsewhere "default")
    as [[itm2 loc2] errs2].
  destruct H1 as (Hloc1 & Hlab1 & _). destruct H2 as (Hloc2 & Hlab2 & Hfail).
  cbn in *. rewrite Hloc1 in Hlab1. rewrite Hloc2 in Hlab2, Hfail.
  split; [exact Hlab1|]. split; [exact Hlab2|].
  by destruct (Hfail (ErrMsg "backupstoragelocation not found") eq_refl) as (_ & ? & _).
Defined.

(** C9 on a successful reconcile, and on a request that fails validation. *)
Lemma tracker_holds_only_running_backups_witness :
  EvTrackerAdd "heptio-ark" "nightly"
    ∈ events (processBackup env_ok example_key (example_world example_new)) ∧
  last (events (processBackup env_ok example_key (example_world example_new)))
    = Some (EvTrackerDelete "heptio-ark" "nightly") ∧
  w_tracker (world (processBackup env_ok example_key (example_world example_new)))
    = ∅ ∖ {[ ("heptio-ark", "nightly") ]} ∧
  (∃ before during,
     events (processBackup env_ok example_key (example_world example_new))
       = before ++ [EvTrackerAdd "heptio-ark" "nightly"] ++ during
           ++ [EvTrackerDelete "heptio-ark" "nightly"] ∧
     length (effects before) = 1%nat ∧
     length (patch_calls during) = 1%nat) ∧
  tracker_events
    (events (processBackup env_contradictory example_key
               (example_world example_contradictory))) = [].
Proof.
  destruct (tracker_holds_only_running_backups env_ok example_key
              (example_world example_new)) as (Hadd & _ & _).
  destruct (tracker_holds_only_running_backups env_contradictory example_key
              (example_world example_contradictory)) as (_ & Hnever & _).
  assert (Hin : EvTrackerAdd "heptio-ark" "nightly"
                  ∈ events (processBackup env_ok example_key (example_world example_new))).
  { apply list_elem_of_In. vm_compute. tauto. }
  destruct (Hadd _ _ Hin)
    as (o & u & a & _ & _ & _ & _ & _ & Hlast & Htr & before & during
        & Hev & _ & Heff & _ & _ & _ & terminal & answer & Hcalls).
  split; [exact Hin|]. split; [exact Hlast|]. split; [exact Htr|].
  split.
  { exists before, during. split; [exact Hev|]. rewrite Heff, Hcalls. split; reflexivity. }
  eapply Hnever; [vm_compute; reflexivity|reflexivity].
Defined.

(** ** Re-delivery and the informer's handler *)

(** X9.  Re-delivery is a no-op.  Once the first status patch of a
    reconcile has been accepted, the request the store holds under that key
    at the end of the reconcile is no longer new, whatever happened to the
    pipeline and to the terminal patch; a later reconcile of the key that
    reads this request from the cache returns nil and does nothing. *)
Theorem redelivery_is_noop
    (c c' : Env) (key ns name : string) (w w' : World)
    (original updated first b : Backup) (rest : list (Backup * Backup * result Backup)) :
  patch_calls (events (processBackup c key w)) = (original, updated, Ok first) :: rest →
  w_server (world (processBackup c key w)) !! (Namespace original, Name original) = Some b →
  SplitMetaNamespaceKey c' key = Ok (ns, name) →
  lister_Get c' ns name = Ok b →
  processBackup c' key w' = mkOutcome None w' [log_running; log_getting].
Proof.
  intros Hcalls Hb Hk Hg.
  apply (gate_closed c' key ns name b w' Hk Hg).
  exact (landed_request_is_not_new c key w original updated first b rest Hcalls Hb).
Qed.

(** X10.  The handler and the gate agree.  The [AddFunc] handler leaves
    the queue alone for a request that is not new, and such a request would
    be a no-op for [processBackup]; it adds the key of a new request to the
    queue, once, and such a request, read from the cache under that key,
    passes the gate of [processBackup] and reaches the first status patch.
    When the key cannot be built the queue is left alone and the error is
    logged. *)
Theorem AddFunc_agrees_with_gate {Q : Type}
    (c : Env) (queue_Add : string → Q → Q) (keyFunc : Backup → result string)
    (backup : Backup) (q : Q) :
  (phase_is_new (Phase (Status backup)) = false →
   AddFunc queue_Add keyFunc backup q
     = (q, [EvLog ControllerLog DebugLevel "Backup is not new, skipping"]) ∧
   ∀ key ns name w,
     SplitMetaNamespaceKey c key = Ok (ns, name) →
     lister_Get c ns name = Ok backup →
     processBackup c key w = mkOutcome None w [log_running; log_getting]) ∧
  (phase_is_new (Phase (Status backup)) = true →
   (∀ err, keyFunc backup = Err err →
      AddFunc queue_Add keyFunc backup q
        = (q, [EvLog ControllerLog ErrorLevel
                 "Error creating queue key, item not added to queue"])) ∧
   (∀ key, keyFunc backup = Ok key →
      AddFunc queue_Add keyFunc backup q = (queue_Add key q, []) ∧
      ∀ ns name w,
        SplitMetaNamespaceKey c key = Ok (ns, name) →
        lister_Get c ns name = Ok backup →
        ∃ answer, head (patch_calls (events (processBackup c key w)))
                  = Some (backup, stamped c backup w, answer))).
Proof.
  unfold AddFunc. fold (phase_is_new (Phase (Status backup))). split.
  - intros Hp. rewrite Hp. split; [reflexivity|].
    intros key ns name w Hk Hg. by apply (gate_closed c key ns name backup w).
  - intros Hp. rewrite Hp. split.
    + by intros err ->.
    + intros key ->. split; [reflexivity|].
      intros ns name w Hk Hg. by apply (gate_open c key ns name backup w).
Qed.

(** ** The further properties on explicit runs *)

(** X1 on a store that refuses the first patch. *)
Lemma processBackup_error_precedes_execution_witness :
  res (processBackup env_first_patch_fails example_key (example_world example_new))
    = Some (ErrWrap (ErrWrap (ErrMsg "connection refused") "error patching backup")
              "error updating Backup status to InProgress") ∧
  tracker_events
    (events (processBackup env_first_patch_fails example_key (example_world example_new)))
    = [] ∧
  reconciler_metrics
    (events (processBackup env_first_patch_fails example_key (example_world example_new)))
    = [].
Proof.
  assert (H : res (processBackup env_first_patch_fails example_key
                     (example_world example_new))
              = Some (ErrWrap (ErrWrap (ErrMsg "connection refused") "error patching backup")
                        "error updating Backup status to InProgress"))
    by (vm_compute; reflexivity).
  destruct (processBackup_error_precedes_execution env_first_patch_fails example_key
              (example_world example_new) _ H) as (_ & Ht & _ & _ & Hm & _).
  auto.
Defined.

(** X4 on a successful reconcile. *)
Lemma first_patch_records_validation_witness :
  ∃ original updated answer,
    head (patch_calls (events (processBackup env_ok example_key
                                 (example_world example_new))))
      = Some (original, updated, answer) ∧
    Version (Status updated) = backupVersion.
Proof.
  do 3 eexists.
  eassert (H : head (patch_calls (events (processBackup env_ok example_key
                                            (example_world example_new))))
               = Some (_, _, _)) by (vm_compute; reflexivity).
  split; [exact H|].
  by destruct (first_patch_records_validation env_ok example_key
                 (example_world example_new) _ _ _ H) as (_ & _ & _ & ? & _).
Defined.

(** X5 on a request whose TTL is zero. *)
Lemma no_ttl_leaves_expiration_witness :
  ∃ original updated answer,
    head (patch_calls (events (processBackup env_no_ttl example_key
                                 (example_world example_no_ttl))))
      = Some (original, updated, answer) ∧
    (TTL (Spec original) ≤ 0)%Z ∧
    Expiration (Status updated) = Expiration (Status original).
Proof.
  do 3 eexists.
  eassert (H : head (patch_calls (events (processBackup env_no_ttl example_key
                                            (example_world example_no_ttl))))
               = Some (_, _, _)) by (vm_compute; reflexivity).
  assert (Httl : (0 ≤ 0)%Z) by reflexivity.
  split; [exact H|]. split; [exact Httl|].
  destruct (no_ttl_leaves_expiration env_no_ttl example_key
              (example_world example_no_ttl) _ _ _ H) as (Hnone & _).
  by destruct (Hnone Httl).
Defined.

(** X6 on a successful reconcile. *)
Lemma pipeline_gets_resolved_location_witness :
  EvNewBackupStore (Some example_location)
    ∈ events (processBackup env_ok example_key (example_world example_new)) ∧
  ∃ original updated answer l,
    head (patch_calls (events (processBackup env_ok example_key
                                 (example_world example_new))))
      = Some (original, updated, answer) ∧
    Some example_location = Some l.
Proof.
  assert (H : EvNewBackupStore (Some example_location)
                ∈ events (processBackup env_ok example_key (example_world example_new))).
  { apply list_elem_of_In. vm_compute. tauto. }
  split; [exact H|].
  destruct (pipeline_gets_resolved_location env_ok example_key
              (example_world example_new) _ H) as (o & u & a & l & H1 & H2 & _).
  exists o, u, a, l. auto.
Defined.

(** X7 on a plugin manager that cannot load the item actions. *)
Lemma pipeline_that_cannot_start_witness :
  EvRegisterBackupAttempt ""
    ∈ events (processBackup env_no_actions example_key (example_world example_new)) ∧
  uploads (events (processBackup env_no_actions example_key (example_world example_new)))
    = [].
Proof.
  assert (H : EvRegisterBackupAttempt ""
                ∈ events (processBackup env_no_actions example_key
                            (example_world example_new))).
  { apply list_elem_of_In. vm_compute. tauto. }
  assert (Hn : ∀ b f, EvBackupperBackup b f
                        ∉ events (processBackup env_no_actions example_key
                                    (example_world example_new))).
  { intros b f Hin%list_elem_of_In. vm_compute in Hin. intuition discriminate. }
  split; [exact H|].
  destruct (pipeline_that_cannot_start env_no_actions example_key
              (example_world example_new) "" H Hn) as (o & u & a & _ & _ & _ & Hup & _).
  exact Hup.
Defined.

(** X8 on a successful reconcile. *)
Lemma metrics_share_schedule_label_witness :
  "" ∈ metric_schedules
         (events (processBackup env_ok example_key (example_world example_new))) ∧
  ∃ original updated stored,
    head (patch_calls (events (processBackup env_ok example_key
                                 (example_world example_new))))
      = Some (original, updated, Ok stored) ∧
    "" = GetLabel "ark-schedule" stored.
Proof.
  assert (H : "" ∈ metric_schedules
                     (events (processBackup env_ok example_key
                                (example_world example_new)))).
  { apply list_elem_of_In. vm_compute. tauto. }
  split; [exact H|].
  exact (metrics_share_schedule_label env_ok example_key (example_world example_new) "" H).
Defined.

(** X9 on a successful reconcile followed by a second delivery of the key. *)
Lemma redelivery_is_noop_witness :
  processBackup env_redelivered example_key (example_world example_new)
    = mkOutcome None (example_world example_new) [log_running; log_getting].
Proof.
  eapply (redelivery_is_noop env_ok env_redelivered example_key "heptio-ark" "nightly"
            (example_world example_new) (example_world example_new)).
  - vm_compute. reflexivity.
  - vm_compute. reflexivity.
  - reflexivity.
  - vm_compute. reflexivity.
Defined.

(** X10 on a queue kept as a list, for a completed and for a new request. *)
Lemma AddFunc_agrees_with_gate_witness :
  AddFunc example_queue_Add example_keyFunc example_completed ["other/backup"]
    = (["other/backup"], [EvLog ControllerLog DebugLevel "Backup is not new, skipping"]) ∧
  AddFunc example_queue_Add example_keyFunc example_new ["other/backup"]
    = (["other/backup"; "heptio-ark/nightly"], []) ∧
  ∃ answer,
    head (patch_calls (events (processBackup env_ok example_key (example_world example_new))))
      = Some (example_new, stamped env_ok example_new (example_world example_new), answer).
Proof.
  destruct (AddFunc_agrees_with_gate env_ok example_queue_Add example_keyFunc
              example_completed ["other/backup"]) as (Hold & _).
  destruct (AddFunc_agrees_with_gate env_ok example_queue_Add example_keyFunc
              example_new ["other/backup"]) as (_ & Hnew).
  destruct (Hold eq_refl) as (H1 & _).
  destruct (Hnew eq_refl) as (_ & Hadd).
  destruct (Hadd example_key eq_refl) as (H2 & Hgate).
  split; [exact H1|]. split; [exact H2|].
  exact (Hgate "heptio-ark" "nightly" (example_world example_new) eq_refl eq_refl).
Defined.

(** X11 on a pipeline that stops at the item actions. *)
Lemma temporary_files_are_released_witness :
  created_files
    (events (runBackup env_no_actions example_in_progress (Some example_location)
               (example_world example_in_progress))) = ["/tmp/log"; "/tmp/backup"] ∧
  removed_files
    (events (runBackup env_no_actions example_in_progress (Some example_location)
               (example_world example_in_progress))) = ["/tmp/backup"; "/tmp/log"] ∧
  last (effects
          (events (runBackup env_no_actions example_in_progress (Some example_location)
                     (example_world example_in_progress)))) = Some (EvGzipClose "/tmp/log").
Proof.
  destruct (temporary_files_are_released env_no_actions example_in_progress
              (Some example_location) (example_world example_in_progress))
    as (_ & Hrem & _ & Hlast).
  assert (Hc : created_files
                 (events (runBackup env_no_actions example_in_progress
                            (Some example_location) (example_world example_in_progress)))
               = ["/tmp/log"; "/tmp/backup"]) by (vm_compute; reflexivity).
  split; [exact Hc|]. split; [by rewrite Hrem, Hc|].
  apply Hlast. reflexivity.
Defined.

(** X12 on an encoder that fails: the log is uploaded alone. *)
Lemma upload_is_manifest_and_archive_or_neither_witness :
  EvPutBackup "nightly" None None "/tmp/log"
    ∈ events (runBackup env_encode_fails example_in_progress (Some example_location)
                (example_world example_in_progress)) ∧
  uploads (events (runBackup env_encode_fails example_in_progress (Some example_location)
                     (example_world example_in_progress)))
    = [EvPutBackup "nightly" None None "/tmp/log"].
Proof.
  assert (H : EvPutBackup "nightly" None None "/tmp/log"
                ∈ events (runBackup env_encode_fails example_in_progress
                            (Some example_location) (example_world example_in_progress))).
  { apply list_elem_of_In. vm_compute. tauto. }
  split; [exact H|].
  by destruct (upload_is_manifest_and_archive_or_neither env_encode_fails
                 example_in_progress (Some example_location)
                 (example_world example_in_progress) _ _ _ _ H) as (_ & _ & ? & _).
Defined.

(** X13 on a successful pipeline. *)
Lemma manifest_is_the_returned_request_witness :
  ∃ manifest,
    EvPutBackup "nightly" (Some manifest) (Some "/tmp/backup") "/tmp/log"
      ∈ events (runBackup env_ok example_in_progress (Some example_location)
                  (example_world example_in_progress)) ∧
    CompletionTimestamp (Status manifest) = 105 ∧
    Phase (Status manifest) = BackupPhaseCompleted.
Proof.
  eexists.
  eassert (H : EvPutBackup "nightly" (Some _) (Some "/tmp/backup") "/tmp/log"
                 ∈ events (runBackup env_ok example_in_progress (Some example_location)
                             (example_world example_in_progress))).
  { vm_compute. repeat first [apply list_elem_of_here | apply list_elem_of_further]. }
  split; [exact H|].
  destruct (manifest_is_the_returned_request env_ok example_in_progress
              (Some example_location) (example_world example_in_progress) _ _ _ _ H)
    as (_ & _ & Hc & _).
  split; [exact Hc|reflexivity].
Defined.

(** X14 on a pipeline that takes five nanoseconds. *)
Lemma pipeline_metrics_values_witness :
  EvRegisterBackupDuration "" 0
    ∈ events (runBackup env_ok example_in_progress (Some example_location)
                (example_world example_in_progress)) ∧
  (0 ≤ clock_Now env_ok 1 - clock_Now env_ok 0 < time_Second)%Z ∧
  (0 : Z) = 0.
Proof.
  assert (H : EvRegisterBackupDuration "" 0
                ∈ events (runBackup env_ok example_in_progress (Some example_location)
                            (example_world example_in_progress))).
  { apply list_elem_of_In. vm_compute. tauto. }
  assert (Hs : (0 ≤ clock_Now env_ok 1 - clock_Now env_ok 0 < time_Second)%Z)
    by (vm_compute; split; [discriminate|reflexivity]).
  split; [exact H|]. split; [exact Hs|].
  destruct (pipeline_metrics_values env_ok example_in_progress (Some example_location)
              (example_world example_in_progress)) as (Hd & _).
  destruct (Hd "" 0 H) as (_ & _ & _ & Hsmall).
  exact (Hsmall Hs).
Defined.

(** X15 on a request that asks for snapshots without a provider. *)
Lemma snapshot_error_iff_no_provider_witness :
  (getLocationAndValidate env_no_provider example_snapshots "default").2
    = ["Server is not configured for PV snapshots"] ∧
  "Server is not configured for PV snapshots"
    ∉ (getLocationAndValidate env_ok example_snapshots "default").2.
Proof.
  destruct (snapshot_error_iff_no_provider env_no_provider example_snapshots "default")
    as (_ & Honly).
  destruct (snapshot_error_iff_no_provider env_ok example_snapshots "default")
    as (Hiff & _).
  split.
  - apply Honly; [reflexivity|reflexivity|discriminate].
  - intros [Hpv _]%Hiff. discriminate.
Defined.

(** X17 on snapshots that cannot be marshalled. *)
Lemma patchBackup_local_failures_send_nothing_witness :
  world (patchBackup env_marshal_fails example_new example_in_progress
           (example_world example_new)) = example_world example_new ∧
  effects (events (patchBackup env_marshal_fails example_new example_in_progress
                     (example_world example_new))) = [] ∧
  effects (events (patchBackup env_ok example_new example_in_progress
                     (example_world example_new)))
    = [EvPatch "heptio-ark" "nightly" (CreateMergePatch example_new example_in_progress)].
Proof.
  destruct (patchBackup_local_failures_send_nothing env_marshal_fails example_new
              example_in_progress (example_world example_new)) as (Hfail & _).
  destruct (patchBackup_local_failures_send_nothing env_ok example_new
              example_in_progress (example_world example_new)) as (_ & Hsend).
  destruct Hfail as (_ & Hw & He); [left; discriminate|].
  destruct (Hsend eq_refl eq_refl eq_refl) as (Hs & _).
  auto.
Defined.
